(** * Field extraction of the OCR component

    A shallow embedding of the decision logic of [extractText]
    (lines 112-166 of the component): the line clean-up, the function
    [extractFieldValue], the [fields] object and the [fullText] summary,
    together with the String, Array, RegExp and Object built-ins they call.

    Strings are JavaScript strings restricted to code units below 256
    (Basic Latin and Latin-1 Supplement), which is the range of [ascii]:
    an [ascii] is read as the code unit of the same number. *)

From Stdlib Require Import Bool List ZArith NArith Lia Ascii String.
Import ListNotations.

Local Open Scope string_scope.
Local Open Scope list_scope.

(** ** Built-ins of the JavaScript runtime used by the component *)

Module JS.

(** *** Code units *)

Definition code (c : ascii) : N := N_of_ascii c.

Definition between (lo hi n : N) : bool := (lo <=? n)%N && (n <=? hi)%N.

(** WhiteSpace and LineTerminator code units below 256, as stripped by
    [String.prototype.trim]: TAB, LF, VT, FF, CR, SP and NBSP. *)
Definition isWhiteSpace (c : ascii) : bool :=
  let n := code c in
  between 9 13 n || (n =? 32)%N || (n =? 160)%N.

(** LineTerminator code units below 256: the characters [.] does not match. *)
Definition isLineTerminator (c : ascii) : bool :=
  let n := code c in (n =? 10)%N || (n =? 13)%N.

(** [String.prototype.toLowerCase] on one code unit: A-Z and the Latin-1
    capitals U+00C0-U+00DE (U+00D7, the multiplication sign, excepted)
    move up by 32. *)
Definition toLowerCaseChar (c : ascii) : ascii :=
  let n := code c in
  if between 65 90 n || (between 192 222 n && negb (n =? 215)%N)
  then ascii_of_N (n + 32) else c.

(** The RegExp abstract operation Canonicalize for the [i] flag without the
    [u] flag: the code unit of the upper-cased character when that is a
    single code unit.  It is a number because two Latin-1 letters leave the
    range: U+00FF goes to U+0178 and U+00B5 to U+039C.  U+00DF upper-cases
    to two code units and so stays itself. *)
Definition Canonicalize (c : ascii) : N :=
  let n := code c in
  if between 97 122 n || (between 224 254 n && negb (n =? 247)%N)
  then (n - 32)%N
  else if (n =? 255)%N then 376%N
  else if (n =? 181)%N then 924%N
  else n.

(** *** String.prototype *)

Fixpoint toLowerCase (s : string) : string :=
  match s with
  | EmptyString => EmptyString
  | String c s' => String (toLowerCaseChar c) (toLowerCase s')
  end.

(** [s.includes(p)]: [p] occurs in [s] at some position. *)
Fixpoint includes (s p : string) : bool :=
  prefix p s ||
  match s with
  | EmptyString => false
  | String _ s' => includes s' p
  end.

Fixpoint trimStart (s : string) : string :=
  match s with
  | EmptyString => EmptyString
  | String c s' => if isWhiteSpace c then trimStart s' else s
  end.

Fixpoint trimEnd (s : string) : string :=
  match s with
  | EmptyString => EmptyString
  | String c s' =>
      match trimEnd s' with
      | EmptyString => if isWhiteSpace c then EmptyString else String c EmptyString
      | t => String c t
      end
  end.

Definition trim (s : string) : string := trimEnd (trimStart s).

(** [s.split(sep)] for a one-character separator: the result is never
    empty, [("").split(sep)] is the array holding the empty string. *)
Fixpoint split (sep : ascii) (s : string) : list string :=
  match s with
  | EmptyString => [EmptyString]
  | String c s' =>
      if Ascii.eqb c sep then EmptyString :: split sep s'
      else match split sep s' with
           | seg :: segs => String c seg :: segs
           | [] => [String c EmptyString]
           end
  end.

(** Truthiness of a string and the [||] operator on strings. *)
Definition truthy (s : string) : bool :=
  match s with EmptyString => false | String _ _ => true end.

Definition or_else (a b : string) : string := if truthy a then a else b.

(** *** Array.prototype *)

(** [xs.join(sep)] on an array of strings. *)
Fixpoint join (sep : string) (xs : list string) : string :=
  match xs with
  | [] => EmptyString
  | [x] => x
  | x :: rest => (x ++ sep ++ join sep rest)%string
  end.

(** [xs.indexOf(x)]: index of the first element strictly equal to [x],
    or -1. *)
Fixpoint indexOf (x : string) (xs : list string) : Z :=
  match xs with
  | [] => (-1)%Z
  | y :: rest =>
      if String.eqb y x then 0%Z
      else let r := indexOf x rest in
           if (r <? 0)%Z then (-1)%Z else (r + 1)%Z
  end.

(** [xs[i]]: [None] stands for [undefined]. *)
Definition get (xs : list string) (i : Z) : option string :=
  if (i <? 0)%Z then None else nth_error xs (Z.to_nat i).

(** *** RegExp

    [new RegExp(source, "gi")] for the sources the model covers: any
    sequence of pattern characters and of the wildcard [.].  Every other
    SyntaxCharacter opens syntax that is not modelled (groups, classes,
    quantifiers, anchors, escapes, alternation), or is a SyntaxError. *)

Inductive atom : Type :=
  | Lit (c : ascii)
  | AnyChar.

Definition regexp : Type := list atom.

Definition isSyntaxCharacter (c : ascii) : bool :=
  existsb (Ascii.eqb c)
    (list_ascii_of_string "^$\.*+?()[]{}|").

Fixpoint RegExp_gi (source : string) : option regexp :=
  match source with
  | EmptyString => Some []
  | String c rest =>
      match RegExp_gi rest with
      | None => None
      | Some re =>
          if Ascii.eqb c "."%char then Some (AnyChar :: re)
          else if isSyntaxCharacter c then None
          else Some (Lit c :: re)
      end
  end.

Definition atomMatches (a : atom) (c : ascii) : bool :=
  match a with
  | Lit p => (Canonicalize p =? Canonicalize c)%N
  | AnyChar => negb (isLineTerminator c)
  end.

(** Does [re] match at the start of [s]? *)
Fixpoint matchesAt (re : regexp) (s : string) : bool :=
  match re, s with
  | [], _ => true
  | a :: re', String c s' => atomMatches a c && matchesAt re' s'
  | _ :: _, EmptyString => false
  end.

(** [s.replace(re, "")] for a global [re]: the leftmost matches, found from
    left to right without overlap, are dropped.  [skip] counts the
    characters of the current match still to be dropped.  An empty match
    drops nothing and the scan moves one character on. *)
Fixpoint dropMatches (re : regexp) (skip : nat) (s : string) : string :=
  match s with
  | EmptyString => EmptyString
  | String c s' =>
      match skip with
      | S k => dropMatches re k s'
      | O =>
          if matchesAt re s then
            match List.length re with
            | O => String c (dropMatches re 0 s')
            | S k => dropMatches re k s'
            end
          else String c (dropMatches re 0 s')
      end
  end.

Definition replaceAll_empty (re : regexp) (s : string) : string :=
  dropMatches re 0 s.

(** [s.replace(/[:=\-|]/g, "")]. *)
Definition isPunctuation (c : ascii) : bool :=
  existsb (Ascii.eqb c) (list_ascii_of_string ":=-|").

Fixpoint stripPunctuation (s : string) : string :=
  match s with
  | EmptyString => EmptyString
  | String c s' =>
      if isPunctuation c then stripPunctuation s'
      else String c (stripPunctuation s')
  end.

End JS.

(** *** Ordinary objects with string values

    An object created by [{}] and used as a map from keys to strings, as its
    own properties in the order [Object.keys] and [Object.entries] list
    them: array-index keys first, by ascending number, then the other keys
    in the order of their creation. *)

Module JSObject.

Import JS.

Definition t : Type := list (string * string).

Definition empty : t := [].

Definition digitValue (c : ascii) : option N :=
  let n := code c in
  if between 48 57 n then Some (n - 48)%N else None.

Fixpoint parseDigits (acc : N) (s : string) : option N :=
  match s with
  | EmptyString => Some acc
  | String c s' =>
      match digitValue c with
      | None => None
      | Some d => parseDigits (10 * acc + d)%N s'
      end
  end.

(** The array index a key denotes: its canonical decimal numeral, below
    2^32 - 1. *)
Definition arrayIndex (key : string) : option N :=
  match key with
  | EmptyString => None
  | String c rest =>
      if Ascii.eqb c "0"%char && truthy rest then None
      else match parseDigits 0 key with
           | Some n => if (n <? 4294967295)%N then Some n else None
           | None => None
           end
  end.

Definition proto : string := "__proto__".

Fixpoint lookup (o : t) (key : string) : option string :=
  match o with
  | [] => None
  | (k, v) :: o' => if String.eqb k key then Some v else lookup o' key
  end.

Fixpoint update (o : t) (key value : string) : t :=
  match o with
  | [] => []
  | (k, v) :: o' =>
      if String.eqb k key then (k, value) :: o' else (k, v) :: update o' key value
  end.

Fixpoint insertIndex (n : N) (key value : string) (o : t) : t :=
  match o with
  | [] => [(key, value)]
  | (k, v) :: o' =>
      match arrayIndex k with
      | Some m => if (m <? n)%N then (k, v) :: insertIndex n key value o'
                  else (key, value) :: o
      | None => (key, value) :: o
      end
  end.

(** [o[key] = value] for a string [value].  The key [__proto__] reaches the
    setter inherited from [Object.prototype], which ignores a value that is
    not an object: no property is created. *)
Definition set (o : t) (key value : string) : t :=
  if String.eqb key proto then o
  else match lookup o key with
       | Some _ => update o key value
       | None =>
           match arrayIndex key with
           | Some n => insertIndex n key value o
           | None => o ++ [(key, value)]
           end
       end.

(** The text of [o[key]] inside a template literal.  An own property gives
    its value; [__proto__] gives [Object.prototype], printed as
    [[object Object]]; [None] for any other key that is not an own property
    (inherited from [Object.prototype], or undefined). *)
Definition interpolate (o : t) (key : string) : option string :=
  match lookup o key with
  | Some v => Some v
  | None => if String.eqb key proto then Some "[object Object]" else None
  end.

Definition keys (o : t) : list string := map fst o.

End JSObject.

(** ** The component *)

Module Extractor.

Import JS.

Definition LF : ascii := "010"%char.
Definition newline : string := String LF EmptyString.

Record FieldConfig : Type := mkField {
  key : string;
  patterns : list string
}.

(** Lines 113-117. *)
Definition importantFields : list FieldConfig :=
  [ mkField "Model Name" ["model name"; "model"; "product"];
    mkField "Model Number" ["model number"; "model no"; "part number"; "p/n"];
    mkField "Serial Number" ["serial number"; "serial no"; "s/n"; "sn"] ].

Definition NotFound : string := "Not found".

(** Lines 120-123: [text.split("\n").map(line => line.trim())
    .filter(line => line.length > 0)]. *)
Definition lines (text : string) : list string :=
  filter truthy (map trim (split LF text)).

(** Lines 133-136: the value left on the matching line.  [None]: the
    pattern is outside the modelled RegExp sources, the model does not say
    what the call does (it may also be a SyntaxError). *)
Definition candidate (pattern line : string) : option string :=
  match RegExp_gi pattern with
  | None => None
  | Some re => Some (trim (stripPunctuation (replaceAll_empty re line)))
  end.

(** Lines 132-146: the body of [if (lineLower.includes(pattern))], which
    returns on every path.  [None]: [candidate] is not modelled, or
    [lines[lineIndex + 1]] is [undefined] and [.trim()] is a TypeError. *)
Definition onMatch (lines : list string) (line pattern : string) : option string :=
  match candidate pattern line with
  | None => None
  | Some value =>
      if negb (truthy value) then
        let lineIndex := indexOf line lines in
        if (lineIndex <? Z.of_nat (List.length lines) - 1)%Z then
          match get lines (lineIndex + 1) with
          | Some next => Some (trim next)
          | None => None
          end
        else Some (or_else value NotFound)
      else Some (or_else value NotFound)
  end.

(** Lines 130-148: the loop over [fieldConfig.patterns] for one line.  The
    outer [None] means that the loop ended without returning. *)
Fixpoint forPatterns (lines : list string) (line lineLower : string)
    (pats : list string) : option (option string) :=
  match pats with
  | [] => None
  | pattern :: rest =>
      if includes lineLower pattern then Some (onMatch lines line pattern)
      else forPatterns lines line lineLower rest
  end.

(** Lines 127-150: the loop over [lines], then [return "Not found"]. *)
Fixpoint forLines (lines : list string) (pats : list string)
    (todo : list string) : option string :=
  match todo with
  | [] => Some NotFound
  | line :: rest =>
      let lineLower := toLowerCase line in
      match forPatterns lines line lineLower pats with
      | Some returned => returned
      | None => forLines lines pats rest
      end
  end.

Definition extractFieldValue (fieldConfig : FieldConfig) (lines : list string)
  : option string :=
  forLines lines (patterns fieldConfig) lines.

(** Lines 154-157: [importantFields.forEach(...)] filling [fields]. *)
Fixpoint fillFields (specs : list FieldConfig) (lines : list string)
    (fields : JSObject.t) : option JSObject.t :=
  match specs with
  | [] => Some fields
  | field :: rest =>
      match extractFieldValue field lines with
      | None => None
      | Some value => fillFields rest lines (JSObject.set fields (key field) value)
      end
  end.

(** Lines 162-164: one [`${field.key}: ${fields[field.key]}`] per field. *)
Fixpoint summaryLines (specs : list FieldConfig) (fields : JSObject.t)
  : option (list string) :=
  match specs with
  | [] => Some []
  | field :: rest =>
      match JSObject.interpolate fields (key field), summaryLines rest fields with
      | Some v, Some ls => Some ((key field ++ ": " ++ v)%string :: ls)
      | _, _ => None
      end
  end.

Definition fullText (specs : list FieldConfig) (fields : JSObject.t)
  : option string :=
  option_map (join newline) (summaryLines specs fields).

(** Lines 120-166 for a given field list: the [fields] object and the
    [fullText] summary computed from the recognised text. *)
Definition extract (specs : list FieldConfig) (text : string)
  : option (JSObject.t * string) :=
  match fillFields specs (lines text) JSObject.empty with
  | None => None
  | Some fields =>
      match fullText specs fields with
      | None => None
      | Some summary => Some (fields, summary)
      end
  end.

(** The part of the component's state the extraction writes, and [progress]
    which it leaves alone. *)
Record State : Type := mkState {
  extractedText : string;
  extractedFields : JSObject.t;
  isProcessing : bool;
  progress : N
}.

(** Lines 93-175 once [worker.recognize] has answered [text], when the
    [try] block runs to its end: the state after the setters of the block
    and of [finally].  [None] where [extract] is [None]; the [catch] block,
    which only runs when the [try] block throws, is not modelled. *)
Definition extractText (specs : list FieldConfig) (st : State) (text : string)
  : option State :=
  match extract specs text with
  | Some (fields, summary) => Some (mkState summary fields false (progress st))
  | None => None
  end.

End Extractor.

(** ** Notions of the specification

    Definitions that follow the specification's wording, to be compared
    with the component's code above. *)

Module Spec.

Import JS.

(** A line contains a pattern as a case-insensitive substring. *)
Definition containsCI (line pattern : string) : bool :=
  includes (toLowerCase line) (toLowerCase pattern).

(** The pattern text occurs, case-insensitively, at the start of [s]. *)
Definition occursAtCI (pattern s : string) : bool :=
  prefix (toLowerCase pattern) (toLowerCase s).

(** Removing all case-insensitive occurrences of the pattern text, read
    from left to right: [skip] characters of the occurrence being removed
    are still to go. *)
Fixpoint removeFrom (pattern : string) (skip : nat) (s : string) : string :=
  match s with
  | EmptyString => EmptyString
  | String c s' =>
      match skip with
      | S k => removeFrom pattern k s'
      | O =>
          if occursAtCI pattern s then
            match String.length pattern with
            | O => String c (removeFrom pattern 0 s')
            | S k => removeFrom pattern k s'
            end
          else String c (removeFrom pattern 0 s')
      end
  end.

Definition removeOccurrencesCI (pattern s : string) : string :=
  removeFrom pattern 0 s.

(** Step 3 of the matcher: occurrences removed, then the punctuation, then
    trimmed. *)
Definition candidateValue (pattern line : string) : string :=
  trim (stripPunctuation (removeOccurrencesCI pattern line)).

(** Every character of [s] satisfies [p]. *)
Fixpoint allChars (p : ascii -> bool) (s : string) : bool :=
  match s with
  | EmptyString => true
  | String c s' => p c && allChars p s'
  end.

Definition noPunctuation (s : string) : bool :=
  allChars (fun c => negb (isPunctuation c)) s.

Definition leadingWhiteSpace (s : string) : bool :=
  match s with
  | EmptyString => false
  | String c _ => isWhiteSpace c
  end.

Fixpoint trailingWhiteSpace (s : string) : bool :=
  match s with
  | EmptyString => false
  | String c EmptyString => isWhiteSpace c
  | String _ s' => trailingWhiteSpace s'
  end.

(** Trimmed: neither leading nor trailing whitespace. *)
Definition trimmed (s : string) : bool :=
  negb (leadingWhiteSpace s) && negb (trailingWhiteSpace s).

(** An element of a LineSequence: a non-empty, trimmed string. *)
Definition isLine (s : string) : bool := truthy s && trimmed s.

(** A pattern is plain text for RegExp: it has no SyntaxCharacter. *)
Definition plainText (pattern : string) : bool :=
  allChars (fun c => negb (isSyntaxCharacter c)) pattern.

(** A pattern is in lower case. *)
Definition lowerCase (pattern : string) : bool :=
  String.eqb (toLowerCase pattern) pattern.

(** One summary line, ["<key>: <value>"]. *)
Definition summaryLine (k v : string) : string := k ++ ": " ++ v.

End Spec.

(** ** Vocabulary of the statements *)

Module Notions.

Import JS Spec Extractor.

(** The test of line 131 on a line of the array: [lineLower] is the
    lower-cased line (line 128), the pattern is taken as it is written. *)
Definition lineIncludes (line pattern : string) : bool :=
  includes (toLowerCase line) pattern.

(** [line], between [before] and [after], is the first line that passes
    [test] for some pattern, and [p], between [pre] and [post], is the first
    pattern it passes the test for. *)
Definition firstMatch (test : string -> string -> bool)
    (pats lines before : list string) (line : string) (after pre : list string)
    (p : string) (post : list string) : Prop :=
  lines = before ++ line :: after /\
  pats = pre ++ p :: post /\
  Forall (fun l => Forall (fun q => test l q = false) pats) before /\
  Forall (fun q => test line q = false) pre /\
  test line p = true.

(** Steps 3 to 5 on the selected line and pattern: the candidate of lines
    133-136 when it is not empty, else the next line trimmed when there is
    one, else the sentinel. *)
Definition valueFrom (line p : string) (next : option string) : option string :=
  match candidate p line with
  | None => None
  | Some value =>
      if truthy value then Some value
      else match next with
           | Some n => Some (trim n)
           | None => Some NotFound
           end
  end.

(** Every pattern of the field can be compiled by the modelled [RegExp]. *)
Definition supported (f : FieldConfig) : bool :=
  forallb (fun p => match RegExp_gi p with Some _ => true | None => false end)
          (patterns f).

(** An ordinary key: neither an array index nor [__proto__]. *)
Definition ordinaryKey (f : FieldConfig) : Prop :=
  JSObject.arrayIndex (key f) = None /\ key f <> JSObject.proto.

(** A segment without newline. *)
Definition noLF (seg : string) : Prop :=
  allChars (fun c => negb (Ascii.eqb c LF)) seg = true.

(** The plain-text pattern [p] as a RegExp: one literal per character. *)
Definition literals (p : string) : regexp := map Lit (list_ascii_of_string p).

(** The lower-case letter of a canonical code unit. *)
Definition ofCanonical (n : N) : ascii :=
  if (n =? 376)%N then ascii_of_N 255
  else if (n =? 924)%N then ascii_of_N 181
  else toLowerCaseChar (ascii_of_N n).

(** The lines and fields of Scenario A. *)
Definition scenarioA_lines : list string :=
  ["Model: Acme X200"; "S/N: 99-AB-221"].

Definition scenarioA_specs : list FieldConfig :=
  [mkField "Model Name" ["model"]; mkField "Serial Number" ["s/n"]].

(** A recognised text of three lines. *)
Definition sampleText : string :=
  "Model Name: Foo" ++ newline ++ "S/N" ++ newline ++ "12-3".

End Notions.

(** ** The values-only component

    The decision logic of [extractText] in
    [src/app/components/ImageTextExtractor.tsx] (lines 56-86): it keeps the
    values of three keywords, one per line, without their names. *)

Module ValuesOnly.

Import JS Extractor.

(** Line 57. *)
Definition impData : list string :=
  ["Model Name"; "Model Number"; "Serial Number"].

(** Lines 60-62: [text.split("\n").filter((line) => line.trim() !== "")].
    The lines kept are not trimmed. *)
Definition extractedInfo (text : string) : list string :=
  filter (fun line => negb (String.eqb (trim line) EmptyString)) (split LF text).

(** [s.replace(/[:]/g, "")]. *)
Fixpoint stripColons (s : string) : string :=
  match s with
  | EmptyString => EmptyString
  | String c s' =>
      if Ascii.eqb c ":"%char then stripColons s' else String c (stripColons s')
  end.

(** Lines 68-71: what is left of the matching line.  [None]: the keyword is
    outside the modelled RegExp sources. *)
Definition valueOf (keyword line : string) : option string :=
  match RegExp_gi keyword with
  | None => None
  | Some re => Some (trim (stripColons (replaceAll_empty re line)))
  end.

(** Lines 65-76: the loop over [lines] by index, returning at the first
    line whose lower-cased text includes the lower-cased keyword. *)
Fixpoint searchStringInArray (keyword : string) (lines : list string)
  : option string :=
  match lines with
  | [] => Some NotFound
  | line :: rest =>
      if includes (toLowerCase line) (toLowerCase keyword) then
        match valueOf keyword line with
        | None => None
        | Some value => Some (or_else value NotFound)
        end
      else searchStringInArray keyword rest
  end.

(** Lines 79-83: [keywords.forEach(...)] appending [`${value}\n`] to
    [result]. *)
Fixpoint appendValues (keywords lines : list string) (result : string)
  : option string :=
  match keywords with
  | [] => Some result
  | keyword :: rest =>
      match searchStringInArray keyword lines with
      | None => None
      | Some value => appendValues rest lines (result ++ value ++ newline)
      end
  end.

(** Lines 60-86: the text stored by [setExtractedText(result || text)]. *)
Definition storedText (keywords : list string) (text : string) : option string :=
  match appendValues keywords (extractedInfo text) EmptyString with
  | None => None
  | Some result => Some (or_else result text)
  end.

End ValuesOnly.

(** ** What the page shows of the results (part_000, lines 322-379) *)

Module View.

Import JS Extractor.

(** Line 322: the results panel is rendered when [extractedText] is
    truthy. *)
Definition showResults (st : State) : bool := truthy (extractedText st).

(** Lines 364-376: inside the panel, one row per entry of
    [Object.entries(extractedFields)] when the object has a key. *)
Definition fieldRows (st : State) : list (string * string) :=
  if showResults st
     && (0 <? List.length (JSObject.keys (extractedFields st)))%nat
  then extractedFields st
  else [].

End View.

(** ** The event handlers of the component (part_000, lines 19-176) *)

Module Handlers.

Import JS Extractor.

(** What the handlers read of a [File]. *)
Record File : Type := mkFile {
  fileName : string;
  fileType : string;
  fileSize : N
}.

(** The state of the component: the four variables of [Extractor.State]
    and the four others. *)
Record UI : Type := mkUI {
  selectedImage : option File;
  imagePreview : string;
  copySuccess : bool;
  dragActive : bool;
  results : State
}.

(** Lines 9-16. *)
Definition initial : UI :=
  mkUI None EmptyString false false
       (mkState EmptyString JSObject.empty false 0).

(** Line 172. *)
Definition errorText : string :=
  "Error occurred while extracting text. Please try again.".

Definition typeAlert : string := "Please upload an image file".
Definition sizeAlert : string := "File size should be less than 10MB".

(** Line 50: [10 * 1024 * 1024]. *)
Definition maxSize : N := 10 * 1024 * 1024.

(** Lines 20-28, on the type of the drag event. *)
Definition handleDrag (ui : UI) (type : string) : UI :=
  if String.eqb type "dragenter" || String.eqb type "dragover" then
    mkUI (selectedImage ui) (imagePreview ui) (copySuccess ui) true (results ui)
  else if String.eqb type "dragleave" then
    mkUI (selectedImage ui) (imagePreview ui) (copySuccess ui) false (results ui)
  else ui.

(** Lines 42-69, up to the start of the [FileReader]: the state and the
    alert shown, if any.  The preview arrives later, with [readerLoaded]. *)
Definition handleFile (ui : UI) (file : File) : UI * option string :=
  if negb (prefix "image/" (fileType file)) then (ui, Some typeAlert)
  else if (maxSize <? fileSize file)%N then (ui, Some sizeAlert)
  else
    (mkUI (Some file) (imagePreview ui) false (dragActive ui)
          (mkState EmptyString JSObject.empty (isProcessing (results ui)) 0),
     None).

(** Lines 59-61: [reader.onload]. *)
Definition readerLoaded (ui : UI) (result : string) : UI :=
  mkUI (selectedImage ui) result (copySuccess ui) (dragActive ui) (results ui).

(** Lines 31-39: [files] is [e.dataTransfer.files]. *)
Definition handleDrop (ui : UI) (files : list File) : UI * option string :=
  let ui' :=
    mkUI (selectedImage ui) (imagePreview ui) (copySuccess ui) false (results ui)
  in
  match files with
  | file :: _ => handleFile ui' file
  | [] => (ui', None)
  end.

(** Lines 71-75: [files] is [event.target.files], which may be [null]. *)
Definition handleImageChange (ui : UI) (files : option (list File))
  : UI * option string :=
  match files with
  | Some (file :: _) => handleFile ui file
  | _ => (ui, None)
  end.

(** Lines 78-87, on the state. *)
Definition clearImage (ui : UI) : UI :=
  mkUI None EmptyString (copySuccess ui) (dragActive ui)
       (mkState EmptyString JSObject.empty (isProcessing (results ui)) 0).

(** Lines 91-95: the start of [extractText]. *)
Definition extractStarted (ui : UI) : UI :=
  match selectedImage ui with
  | None => ui
  | Some _ =>
      mkUI (selectedImage ui) (imagePreview ui) (copySuccess ui) (dragActive ui)
           (mkState EmptyString JSObject.empty true (progress (results ui)))
  end.

(** Lines 100-104: the logger, on the rounded percentage. *)
Definition progressed (ui : UI) (percent : N) : UI :=
  mkUI (selectedImage ui) (imagePreview ui) (copySuccess ui) (dragActive ui)
       (mkState (extractedText (results ui)) (extractedFields (results ui))
                (isProcessing (results ui)) percent).

(** Lines 112-166: the [try] block, having recognised [text], stores the
    fields and the summary.  [None] where [extract] is [None]. *)
Definition stored (ui : UI) (text : string) : option UI :=
  match extract importantFields text with
  | None => None
  | Some (fields, summary) =>
      Some (mkUI (selectedImage ui) (imagePreview ui) (copySuccess ui)
                 (dragActive ui)
                 (mkState summary fields (isProcessing (results ui))
                          (progress (results ui))))
  end.

(** Lines 170-172: the [catch] block, wherever the [try] block threw. *)
Definition caught (ui : UI) : UI :=
  mkUI (selectedImage ui) (imagePreview ui) (copySuccess ui) (dragActive ui)
       (mkState errorText (extractedFields (results ui))
                (isProcessing (results ui)) (progress (results ui))).

(** Lines 173-175: the [finally] block. *)
Definition finished (ui : UI) : UI :=
  mkUI (selectedImage ui) (imagePreview ui) (copySuccess ui) (dragActive ui)
       (mkState (extractedText (results ui)) (extractedFields (results ui))
                false (progress (results ui))).

(** Lines 179-183: the clipboard accepted the text; and the timer set
    there, two seconds later. *)
Definition copied (ui : UI) : UI :=
  mkUI (selectedImage ui) (imagePreview ui) true (dragActive ui) (results ui).

Definition copyExpired (ui : UI) : UI :=
  mkUI (selectedImage ui) (imagePreview ui) false (dragActive ui) (results ui).

(** What can happen to the component: the calls of its handlers and the
    steps of a running [extractText], in the order they take place. *)
Inductive event : Type :=
  | Drag (type : string)
  | Drop (files : list File)
  | Change (files : option (list File))
  | ReaderLoaded (result : string)
  | Clear
  | ExtractClicked
  | Progress (percent : N)
  | Stored (text : string)
  | Caught
  | Finished
  | Copied
  | CopyExpired.

Definition step (ui : UI) (e : event) : option UI :=
  match e with
  | Drag type => Some (handleDrag ui type)
  | Drop files => Some (fst (handleDrop ui files))
  | Change files => Some (fst (handleImageChange ui files))
  | ReaderLoaded result => Some (readerLoaded ui result)
  | Clear => Some (clearImage ui)
  | ExtractClicked => Some (extractStarted ui)
  | Progress percent => Some (progressed ui percent)
  | Stored text => stored ui text
  | Caught => Some (caught ui)
  | Finished => Some (finished ui)
  | Copied => Some (copied ui)
  | CopyExpired => Some (copyExpired ui)
  end.

Fixpoint run (ui : UI) (events : list event) : option UI :=
  match events with
  | [] => Some ui
  | e :: rest =>
      match step ui e with
      | None => None
      | Some ui' => run ui' rest
      end
  end.

(** The test of [handleFile]: an image type and at most [maxSize] bytes. *)
Definition accepted (file : File) : bool :=
  prefix "image/" (fileType file) && (fileSize file <=? maxSize)%N.

End Handlers.

(** ** Vocabulary of the further statements *)

Module MoreNotions.

Import JS Spec Extractor.

(** No colon in [s]. *)
Definition noColon (s : string) : bool :=
  allChars (fun c => negb (Ascii.eqb c ":"%char)) s.

(** The values, each followed by a newline. *)
Fixpoint valueLines (values : list string) : string :=
  match values with
  | [] => EmptyString
  | v :: rest => v ++ newline ++ valueLines rest
  end.

(** The keyword can be compiled by the modelled [RegExp]. *)
Definition supportedKeyword (keyword : string) : bool :=
  match RegExp_gi keyword with Some _ => true | None => false end.

(** Two atoms that match the same characters under the [i] flag. *)
Definition sameAtom (a b : atom) : Prop :=
  match a, b with
  | Lit x, Lit y => Canonicalize x = Canonicalize y
  | AnyChar, AnyChar => True
  | _, _ => False
  end.

(** The keys of the configured fields. *)
Definition configuredKeys : list string :=
  ["Model Name"; "Model Number"; "Serial Number"].

(** The selected file, if any, passed the test of [handleFile]. *)
Definition validSelection (ui : Handlers.UI) : Prop :=
  match Handlers.selectedImage ui with
  | None => True
  | Some file => Handlers.accepted file = true
  end.

(** The stored fields are none, or those of the configured keys under a
    text that is not empty. *)
Definition fieldsWithText (st : State) : Prop :=
  extractedFields st = [] \/
  (truthy (extractedText st) = true /\
   JSObject.keys (extractedFields st) = configuredKeys).

End MoreNotions.

(** ** Facts about the built-ins *)

Module JSFacts.

Import JS Spec Notions.

Ltac each_ascii c :=
  destruct c as [[] [] [] [] [] [] [] []].

Lemma toLowerCaseChar_idem (c : ascii) :
  toLowerCaseChar (toLowerCaseChar c) = toLowerCaseChar c.
Proof. each_ascii c; reflexivity. Qed.

Lemma Canonicalize_toLowerCaseChar (c : ascii) :
  Canonicalize (toLowerCaseChar c) = Canonicalize c.
Proof. each_ascii c; reflexivity. Qed.

Lemma ofCanonical_Canonicalize (c : ascii) :
  ofCanonical (Canonicalize c) = toLowerCaseChar c.
Proof. each_ascii c; reflexivity. Qed.

(** Under the [i] flag two code units match exactly when their lower-case
    forms agree. *)
Lemma Canonicalize_eqb (p c : ascii) :
  (Canonicalize p =? Canonicalize c)%N
  = Ascii.eqb (toLowerCaseChar p) (toLowerCaseChar c).
Proof.
  destruct (Ascii.eqb_spec (toLowerCaseChar p) (toLowerCaseChar c)) as [E | E].
  - apply N.eqb_eq.
    rewrite <- (Canonicalize_toLowerCaseChar p), E.
    apply Canonicalize_toLowerCaseChar.
  - apply N.eqb_neq. intro H. apply E.
    rewrite <- !ofCanonical_Canonicalize. now rewrite H.
Qed.

Lemma toLowerCase_idem (s : string) :
  toLowerCase (toLowerCase s) = toLowerCase s.
Proof.
  induction s as [| c s IH]; simpl; [reflexivity |].
  now rewrite toLowerCaseChar_idem, IH.
Qed.

Lemma toLowerCase_app (a b : string) :
  toLowerCase (a ++ b) = (toLowerCase a ++ toLowerCase b)%string.
Proof.
  induction a as [| c a IH]; simpl; [reflexivity | now rewrite IH].
Qed.

(** *** prefix and includes *)

Lemma prefix_app (p s : string) :
  prefix p s = true <-> exists b, s = (p ++ b)%string.
Proof.
  revert s; induction p as [| c p IH]; intros s; simpl.
  - split; [intros _; exists s; reflexivity | destruct s; reflexivity].
  - destruct s as [| d s]; simpl.
    + split; [discriminate | intros [b H]; discriminate].
    + destruct (ascii_dec c d) as [-> | N].
      * rewrite IH. split; intros [b H]; exists b; [now rewrite H | now injection H].
      * split; [discriminate | intros [b H]; injection H as H1 H2; congruence].
Qed.

Lemma includes_app (s p : string) :
  includes s p = true <-> exists a b, s = (a ++ p ++ b)%string.
Proof.
  induction s as [| c s IH]; cbn [includes].
  - rewrite orb_false_r, prefix_app. split.
    + intros [b H]. exists EmptyString, b. exact H.
    + intros [a [b H]]. destruct a; simpl in H; [now exists b | discriminate].
  - rewrite orb_true_iff, prefix_app, IH. split.
    + intros [[b H] | [a [b H]]].
      * exists EmptyString, b. exact H.
      * exists (String c a), b. simpl. now rewrite H.
    + intros [a [b H]]. destruct a as [| d a]; simpl in H.
      * left. now exists b.
      * right. inversion H. now exists a, b.
Qed.

Lemma app_lower_inv (a b s : string) :
  toLowerCase s = (a ++ b)%string -> toLowerCase a = a /\ toLowerCase b = b.
Proof.
  revert s; induction a as [| c a IH]; intros s H; simpl in *.
  - split; [reflexivity |]. rewrite <- H. apply toLowerCase_idem.
  - destruct s as [| d s]; simpl in H; [discriminate |].
    injection H as Hc Hs. destruct (IH s Hs) as [Ha Hb].
    rewrite <- Hc, toLowerCaseChar_idem, Ha. split; [reflexivity | exact Hb].
Qed.

(** *** trim *)

Lemma leading_trimStart (s : string) : leadingWhiteSpace (trimStart s) = false.
Proof.
  induction s as [| c s IH]; simpl; [reflexivity |].
  destruct (isWhiteSpace c) eqn:E; [exact IH | simpl; exact E].
Qed.

Lemma trailing_trimEnd (s : string) : trailingWhiteSpace (trimEnd s) = false.
Proof.
  induction s as [| c s IH]; simpl; [reflexivity |].
  destruct (trimEnd s) as [| d t] eqn:E.
  - destruct (isWhiteSpace c) eqn:W; simpl; [reflexivity | exact W].
  - exact IH.
Qed.

Lemma leading_trimEnd (s : string) :
  leadingWhiteSpace s = false -> leadingWhiteSpace (trimEnd s) = false.
Proof.
  destruct s as [| c s]; simpl; [reflexivity |]. intros W.
  destruct (trimEnd s); rewrite ?W; simpl; exact W.
Qed.

Lemma trimmed_trim (s : string) : trimmed (trim s) = true.
Proof.
  unfold trimmed, trim.
  rewrite leading_trimEnd by apply leading_trimStart.
  now rewrite trailing_trimEnd.
Qed.

Lemma trimStart_fixed (s : string) :
  leadingWhiteSpace s = false -> trimStart s = s.
Proof. destruct s as [| c s]; simpl; [reflexivity | now intros ->]. Qed.

Lemma trimEnd_fixed (s : string) :
  trailingWhiteSpace s = false -> trimEnd s = s.
Proof.
  induction s as [| c s IH]; [reflexivity |].
  destruct s as [| d s'].
  - simpl. now intros ->.
  - intros H. change (trailingWhiteSpace (String d s') = false) in H.
    change (trimEnd (String c (String d s')))
      with (match trimEnd (String d s') with
            | EmptyString =>
                if isWhiteSpace c then EmptyString else String c EmptyString
            | t => String c t
            end).
    now rewrite (IH H).
Qed.

Lemma trim_fixed (s : string) : trimmed s = true -> trim s = s.
Proof.
  unfold trimmed, trim. rewrite andb_true_iff, !negb_true_iff. intros [L T].
  rewrite (trimStart_fixed _ L). now apply trimEnd_fixed.
Qed.

Lemma trim_idem (s : string) : trim (trim s) = trim s.
Proof. apply trim_fixed, trimmed_trim. Qed.

Lemma allChars_trimStart (p : ascii -> bool) (s : string) :
  allChars p s = true -> allChars p (trimStart s) = true.
Proof.
  induction s as [| c s IH]; simpl; [reflexivity |].
  rewrite andb_true_iff. intros [Hc Hs].
  destruct (isWhiteSpace c); [now apply IH | simpl; now rewrite Hc, Hs].
Qed.

Lemma allChars_trimEnd (p : ascii -> bool) (s : string) :
  allChars p s = true -> allChars p (trimEnd s) = true.
Proof.
  induction s as [| c s IH]; simpl; [reflexivity |].
  rewrite andb_true_iff. intros [Hc Hs]. specialize (IH Hs).
  destruct (trimEnd s) as [| d t].
  - destruct (isWhiteSpace c); simpl; [reflexivity | now rewrite Hc].
  - change (p c && allChars p (String d t) = true). now rewrite Hc, IH.
Qed.

Lemma allChars_trim (p : ascii -> bool) (s : string) :
  allChars p s = true -> allChars p (trim s) = true.
Proof. intros H. now apply allChars_trimEnd, allChars_trimStart. Qed.

Lemma noPunctuation_strip (s : string) :
  noPunctuation (stripPunctuation s) = true.
Proof.
  unfold noPunctuation.
  induction s as [| c s IH]; simpl; [reflexivity |].
  destruct (isPunctuation c) eqn:E; [exact IH | simpl; now rewrite E, IH].
Qed.

Lemma truthy_true (s : string) : truthy s = true <-> s <> EmptyString.
Proof. destruct s; simpl; split; congruence. Qed.

(** *** split and join *)

Lemma split_not_nil (sep : ascii) (s : string) : split sep s <> [].
Proof.
  destruct s as [| c s]; simpl; [discriminate |].
  destruct (Ascii.eqb c sep); [discriminate |].
  destruct (split sep s); discriminate.
Qed.

Lemma join_cons_char (sep : string) (c : ascii) (x : string) (r : list string) :
  join sep (String c x :: r) = String c (join sep (x :: r)).
Proof. destruct r; reflexivity. Qed.

Lemma join_split (sep : ascii) (s : string) :
  join (String sep EmptyString) (split sep s) = s.
Proof.
  induction s as [| c s IH]; [reflexivity |].
  cbn [split]. destruct (Ascii.eqb_spec c sep) as [-> | N].
  - pose proof (split_not_nil sep s) as NN.
    destruct (split sep s) as [| x r]; [contradiction |].
    cbn [join]. simpl. now rewrite <- IH.
  - pose proof (split_not_nil sep s) as NN.
    destruct (split sep s) as [| x r]; [contradiction |].
    rewrite join_cons_char. now rewrite IH.
Qed.

Lemma split_no_sep (sep : ascii) (s : string) :
  Forall (fun seg => allChars (fun c => negb (Ascii.eqb c sep)) seg = true)
         (split sep s).
Proof.
  induction s as [| c s IH]; cbn [split].
  - constructor; [reflexivity | constructor].
  - destruct (Ascii.eqb c sep) eqn:E.
    + constructor; [reflexivity | exact IH].
    + destruct (split sep s) as [| x r].
      * constructor; [simpl; now rewrite E | constructor].
      * inversion IH; subst. constructor; [simpl; rewrite E; assumption | assumption].
Qed.

(** *** indexOf and element access *)

Lemma indexOf_range (x : string) (xs : list string) :
  In x xs -> (0 <= indexOf x xs < Z.of_nat (List.length xs))%Z.
Proof.
  induction xs as [| y xs IH]; [intros [] |].
  intros H. cbn [indexOf List.length].
  destruct (String.eqb_spec y x) as [-> | N]; [lia |].
  destruct H as [H | H]; [contradiction |]. specialize (IH H).
  destruct (Z.ltb_spec (indexOf x xs) 0); lia.
Qed.

Lemma indexOf_first (x : string) (before after : list string) :
  ~ In x before ->
  indexOf x (before ++ x :: after) = Z.of_nat (List.length before).
Proof.
  induction before as [| y before IH]; intros H.
  - simpl. now rewrite String.eqb_refl.
  - cbn [app indexOf List.length].
    destruct (String.eqb_spec y x) as [-> | N]; [exfalso; apply H; now left |].
    rewrite IH by (intro; apply H; now right).
    destruct (Z.ltb_spec (Z.of_nat (List.length before)) 0); lia.
Qed.

Lemma get_next (x : string) (before after : list string) :
  get (before ++ x :: after) (Z.of_nat (List.length before) + 1) = hd_error after.
Proof.
  unfold get.
  destruct (Z.ltb_spec (Z.of_nat (List.length before) + 1) 0); [lia |].
  replace (Z.to_nat (Z.of_nat (List.length before) + 1))
    with (List.length before + 1)%nat by lia.
  rewrite nth_error_app2 by lia.
  replace (List.length before + 1 - List.length before)%nat with 1%nat by lia.
  destruct after; reflexivity.
Qed.

Lemma get_in_range (xs : list string) (i : Z) :
  (0 <= i < Z.of_nat (List.length xs))%Z -> exists x, get xs i = Some x.
Proof.
  intros H. unfold get. destruct (Z.ltb_spec i 0); [lia |].
  destruct (nth_error xs (Z.to_nat i)) eqn:E; [eauto |].
  apply nth_error_None in E. lia.
Qed.

Lemma get_In (xs : list string) (i : Z) (x : string) :
  get xs i = Some x -> In x xs.
Proof.
  unfold get. destruct (i <? 0)%Z; [discriminate |]. apply nth_error_In.
Qed.

Lemma split_join (sep : ascii) (segs : list string) :
  segs <> [] ->
  Forall (fun seg => allChars (fun c => negb (Ascii.eqb c sep)) seg = true) segs ->
  split sep (join (String sep EmptyString) segs) = segs.
Proof.
  induction segs as [| x r IH]; [contradiction |].
  intros _ H. inversion H as [| ? ? Hx Hr]; subst. clear H.
  induction x as [| c x IHx].
  - destruct r as [| y r]; [reflexivity |].
    change (join (String sep EmptyString) (EmptyString :: y :: r))
      with (String sep (join (String sep EmptyString) (y :: r))).
    cbn [split]. rewrite Ascii.eqb_refl.
    now rewrite IH by (discriminate || assumption).
  - simpl in Hx. apply andb_true_iff in Hx. destruct Hx as [Hc Hx].
    rewrite join_cons_char. cbn [split].
    apply negb_true_iff in Hc. rewrite Hc.
    now rewrite (IHx Hx).
Qed.

(** *** RegExp on plain text *)

Lemma RegExp_gi_plainText (p : string) :
  plainText p = true -> RegExp_gi p = Some (literals p).
Proof.
  unfold plainText, literals.
  induction p as [| c p IH]; simpl; [reflexivity |].
  rewrite andb_true_iff, negb_true_iff. intros [Hc Hp].
  rewrite (IH Hp), Hc.
  destruct (Ascii.eqb_spec c "."%char) as [-> | _]; [discriminate | reflexivity].
Qed.

Lemma length_literals (p : string) :
  List.length (literals p) = String.length p.
Proof.
  unfold literals. rewrite length_map.
  induction p; simpl; congruence.
Qed.

Lemma matchesAt_literals (p s : string) :
  matchesAt (literals p) s = occursAtCI p s.
Proof.
  unfold occursAtCI, literals.
  revert s; induction p as [| c p IH]; intros s.
  - destruct s; reflexivity.
  - destruct s as [| d s]; [reflexivity |].
    cbn [list_ascii_of_string map matchesAt atomMatches toLowerCase prefix].
    rewrite Canonicalize_eqb, IH.
    destruct (Ascii.eqb_spec (toLowerCaseChar c) (toLowerCaseChar d)) as [E | E];
      destruct (ascii_dec (toLowerCaseChar c) (toLowerCaseChar d));
      try contradiction; reflexivity.
Qed.

Lemma dropMatches_literals (p : string) (k : nat) (s : string) :
  dropMatches (literals p) k s = removeFrom p k s.
Proof.
  revert k; induction s as [| c s IH]; intros k; [reflexivity |].
  cbn [dropMatches removeFrom].
  destruct k as [| k]; [| apply IH].
  rewrite matchesAt_literals, length_literals.
  destruct (occursAtCI p (String c s)); destruct (String.length p);
    now rewrite IH.
Qed.

(** For a pattern of plain text the RegExp removes exactly the
    case-insensitive occurrences of the text. *)
Lemma replaceAll_plainText (p s : string) :
  plainText p = true ->
  option_map (fun re => replaceAll_empty re s) (RegExp_gi p)
  = Some (removeOccurrencesCI p s).
Proof.
  intros H. rewrite (RegExp_gi_plainText _ H). simpl.
  unfold replaceAll_empty, removeOccurrencesCI. now rewrite dropMatches_literals.
Qed.

End JSFacts.

(** ** Facts about the two loops of [extractFieldValue] *)

Module ExtractorFacts.

Import JS Spec Notions JSFacts Extractor.

Lemma forPatterns_none (lines : list string) (line lineLower : string)
    (pats : list string) :
  Forall (fun q => includes lineLower q = false) pats ->
  forPatterns lines line lineLower pats = None.
Proof.
  induction 1 as [| q pats Hq _ IH]; simpl; [reflexivity |].
  now rewrite Hq.
Qed.

Lemma forPatterns_first (lines : list string) (line lineLower : string)
    (pre : list string) (p : string) (post : list string) :
  Forall (fun q => includes lineLower q = false) pre ->
  includes lineLower p = true ->
  forPatterns lines line lineLower (pre ++ p :: post)
  = Some (onMatch lines line p).
Proof.
  intros Hpre Hp. induction Hpre as [| q pre Hq _ IH]; simpl.
  - now rewrite Hp.
  - now rewrite Hq.
Qed.

Lemma forLines_skip (all pats before rest : list string) :
  Forall (fun l => Forall (fun q => lineIncludes l q = false) pats) before ->
  forLines all pats (before ++ rest) = forLines all pats rest.
Proof.
  induction 1 as [| l before Hl _ IH]; simpl; [reflexivity |].
  now rewrite (forPatterns_none all l (toLowerCase l) pats Hl).
Qed.

Lemma forLines_no_match (all pats todo : list string) :
  Forall (fun l => Forall (fun q => lineIncludes l q = false) pats) todo ->
  forLines all pats todo = Some NotFound.
Proof.
  intros H. rewrite <- (app_nil_r todo). now rewrite forLines_skip.
Qed.

(** A line that passes the test for a pattern is not among lines that pass
    it for none. *)
Lemma not_in_unmatched (test : string -> string -> bool)
    (pats before : list string) (line p : string) :
  Forall (fun l => Forall (fun q => test l q = false) pats) before ->
  In p pats -> test line p = true -> ~ In line before.
Proof.
  intros Hb Hin Hp Hl.
  rewrite Forall_forall in Hb. specialize (Hb _ Hl).
  rewrite Forall_forall in Hb. specialize (Hb _ Hin). congruence.
Qed.

(** [indexOf] finds the line the loop is at, so the fallback reads the line
    that follows it. *)
Lemma onMatch_at (before : list string) (line : string) (after : list string)
    (p : string) :
  ~ In line before ->
  onMatch (before ++ line :: after) line p = valueFrom line p (hd_error after).
Proof.
  intros Hn. unfold onMatch, valueFrom.
  destruct (candidate p line) as [value |]; [| reflexivity].
  destruct (truthy value) eqn:T; cbn [negb].
  - unfold or_else. now rewrite T.
  - rewrite (indexOf_first _ _ _ Hn), get_next, length_app. cbn [List.length].
    destruct after as [| next more]; cbn [List.length hd_error].
    + destruct (Z.ltb_spec (Z.of_nat (List.length before))
                  (Z.of_nat (List.length before + 1) - 1)); [lia |].
      unfold or_else. now rewrite T.
    + destruct (Z.ltb_spec (Z.of_nat (List.length before))
                  (Z.of_nat (List.length before + S (S (List.length more))) - 1));
        [reflexivity | lia].
Qed.

(** The value returned once the first match under the code's test is
    known. *)
Lemma extract_at_first_match (cfg : FieldConfig)
    (lines before : list string) (line : string) (after pre : list string)
    (p : string) (post : list string) :
  firstMatch lineIncludes (patterns cfg) lines before line after pre p post ->
  extractFieldValue cfg lines = valueFrom line p (hd_error after).
Proof.
  intros (Hl & Hp & Hb & Hpre & Hm).
  unfold extractFieldValue. rewrite Hl at 2.
  rewrite (forLines_skip _ _ _ _ Hb). cbn [forLines].
  rewrite Hp, (forPatterns_first _ _ _ _ _ _ Hpre Hm), Hl.
  apply onMatch_at.
  apply (not_in_unmatched lineIncludes (patterns cfg) before line p Hb);
    [rewrite Hp; apply in_elt | exact Hm].
Qed.

(** What the code's test says about case-insensitive containment. *)
Lemma lineIncludes_containsCI (line q : string) :
  lineIncludes line q = true -> containsCI line q = true.
Proof.
  unfold lineIncludes, containsCI. intros H.
  destruct (proj1 (includes_app _ _) H) as (a & b & E).
  destruct (app_lower_inv _ _ _ E) as [_ Hqb].
  destruct (app_lower_inv _ _ _ Hqb) as [Hq _].
  now rewrite Hq.
Qed.

Lemma containsCI_false (line q : string) :
  containsCI line q = false -> lineIncludes line q = false.
Proof.
  intros H. destruct (lineIncludes line q) eqn:E; [| reflexivity].
  apply lineIncludes_containsCI in E. congruence.
Qed.

Lemma containsCI_lowerCase (line q : string) :
  lowerCase q = true -> containsCI line q = lineIncludes line q.
Proof.
  unfold lowerCase, containsCI, lineIncludes. intros H.
  apply String.eqb_eq in H. now rewrite H.
Qed.

(** A first match for case-insensitive containment whose pattern is in
    lower case is the first match of the code's test. *)
Lemma firstMatch_code (pats lines before : list string) (line : string)
    (after pre : list string) (p : string) (post : list string) :
  firstMatch containsCI pats lines before line after pre p post ->
  lowerCase p = true ->
  firstMatch lineIncludes pats lines before line after pre p post.
Proof.
  intros (Hl & Hp & Hb & Hpre & Hm) HLow.
  repeat split; try assumption.
  - eapply Forall_impl; [| exact Hb].
    intros l Hq. eapply Forall_impl; [| exact Hq].
    intros q. apply containsCI_false.
  - eapply Forall_impl; [| exact Hpre]. intros q. apply containsCI_false.
  - now rewrite <- containsCI_lowerCase.
Qed.

(** For a pattern of plain text the candidate of lines 133-136 is the
    candidate value of the specification. *)
Lemma candidate_plainText (p line : string) :
  plainText p = true -> candidate p line = Some (candidateValue p line).
Proof.
  intros HP. unfold candidate, candidateValue.
  pose proof (replaceAll_plainText p line HP) as R.
  destruct (RegExp_gi p) as [re |]; simpl in R; [| discriminate].
  injection R as R. now rewrite R.
Qed.

Lemma forPatterns_returned (all : list string) (line lineLower : string)
    (pats : list string) (r : option string) :
  forPatterns all line lineLower pats = Some r ->
  exists p, In p pats /\ r = onMatch all line p.
Proof.
  induction pats as [| q pats IH]; simpl; [discriminate |].
  destruct (includes lineLower q).
  - intros H. injection H as <-. exists q. split; [now left | reflexivity].
  - intros H. destruct (IH H) as (p & Hp & E). exists p. split; [now right | exact E].
Qed.

(** A value comes from the sentinel after the loops or from the body of the
    test on some line and pattern. *)
Lemma forLines_returned (all pats todo : list string) (v : string) :
  forLines all pats todo = Some v ->
  v = NotFound \/
  exists line p, In line todo /\ In p pats /\ onMatch all line p = Some v.
Proof.
  induction todo as [| l todo IH]; cbn [forLines].
  - intros H. injection H as <-. now left.
  - destruct (forPatterns all l (toLowerCase l) pats) as [r |] eqn:E.
    + intros H. apply forPatterns_returned in E. destruct E as (p & Hp & ->).
      right. exists l, p. repeat split; [now left | exact Hp | exact H].
    + intros H. destruct (IH H) as [-> | (line & p & Hl & Hp & Hv)]; [now left |].
      right. exists line, p. repeat split; [now right | exact Hp | exact Hv].
Qed.

Lemma onMatch_returns (all : list string) (line p : string) :
  In line all -> RegExp_gi p <> None -> exists v, onMatch all line p = Some v.
Proof.
  intros Hin Hre. unfold onMatch, candidate.
  destruct (RegExp_gi p) as [re |]; [| contradiction].
  destruct (negb (truthy _)); [| eauto].
  destruct (Z.ltb_spec (indexOf line all) (Z.of_nat (List.length all) - 1));
    [| eauto].
  pose proof (indexOf_range _ _ Hin) as R.
  destruct (get_in_range all (indexOf line all + 1)) as [next ->]; [lia | eauto].
Qed.

Lemma forLines_returns (all pats todo : list string) :
  incl todo all ->
  Forall (fun p => RegExp_gi p <> None) pats ->
  exists v, forLines all pats todo = Some v.
Proof.
  intros Hincl Hpats. induction todo as [| l todo IH]; cbn [forLines]; [eauto |].
  destruct (forPatterns all l (toLowerCase l) pats) as [r |] eqn:E.
  - apply forPatterns_returned in E. destruct E as (p & Hp & ->).
    apply onMatch_returns; [apply Hincl; now left |].
    rewrite Forall_forall in Hpats. now apply Hpats.
  - apply IH. intros x Hx. apply Hincl. now right.
Qed.

(** With patterns the modelled RegExp covers, [extractFieldValue] returns a
    string on every array of lines. *)
Lemma extractFieldValue_returns (f : FieldConfig) (ls : list string) :
  supported f = true -> exists v, extractFieldValue f ls = Some v.
Proof.
  intros H. apply forLines_returns; [apply incl_refl |].
  unfold supported in H. rewrite forallb_forall in H.
  apply Forall_forall. intros p Hp. specialize (H p Hp).
  destruct (RegExp_gi p); [discriminate | discriminate].
Qed.

Lemma values_exist (specs : list FieldConfig) (ls : list string) :
  Forall (fun f => supported f = true) specs ->
  exists values,
    Forall2 (fun f v => extractFieldValue f ls = Some v) specs values.
Proof.
  induction 1 as [| f specs Hf _ [values IH]].
  - exists []. constructor.
  - destruct (extractFieldValue_returns f ls Hf) as [v Hv].
    exists (v :: values). now constructor.
Qed.

End ExtractorFacts.

(** ** Facts about the [fields] object *)

Module ObjectFacts.

Import JS Spec Notions JSFacts Extractor ExtractorFacts.

Lemma lookup_None (o : JSObject.t) (k : string) :
  ~ In k (JSObject.keys o) -> JSObject.lookup o k = None.
Proof.
  induction o as [| [k' v'] o IH]; simpl; [reflexivity |].
  intros H. destruct (String.eqb_spec k' k) as [-> | N].
  - exfalso. apply H. now left.
  - apply IH. intro. apply H. now right.
Qed.

Lemma lookup_In (o : JSObject.t) (k v : string) :
  NoDup (JSObject.keys o) -> In (k, v) o -> JSObject.lookup o k = Some v.
Proof.
  induction o as [| [k' v'] o IH]; simpl; [intros _ [] |].
  intros ND [H | H].
  - injection H as -> ->. now rewrite String.eqb_refl.
  - inversion ND as [| ? ? Hk ND']; subst.
    destruct (String.eqb_spec k' k) as [-> | N].
    + exfalso. apply Hk. change k with (fst (k, v)). now apply in_map.
    + now apply IH.
Qed.

(** A key that is new, is not an array index and is not [__proto__] is
    added after the properties already there. *)
Lemma set_new (o : JSObject.t) (k v : string) :
  ~ In k (JSObject.keys o) ->
  JSObject.arrayIndex k = None ->
  k <> JSObject.proto ->
  JSObject.set o k v = o ++ [(k, v)].
Proof.
  intros Hn Hi Hp. unfold JSObject.set.
  destruct (String.eqb_spec k JSObject.proto) as [E | _]; [contradiction |].
  now rewrite (lookup_None _ _ Hn), Hi.
Qed.

Lemma keys_app (o o' : JSObject.t) :
  JSObject.keys (o ++ o') = JSObject.keys o ++ JSObject.keys o'.
Proof. apply map_app. Qed.

Lemma fillFields_append (lines : list string) (specs : list FieldConfig) :
  forall (values : list string) (acc : JSObject.t),
  NoDup (map key specs) ->
  Forall ordinaryKey specs ->
  (forall f, In f specs -> ~ In (key f) (JSObject.keys acc)) ->
  Forall2 (fun f v => extractFieldValue f lines = Some v) specs values ->
  fillFields specs lines acc = Some (acc ++ combine (map key specs) values).
Proof.
  induction specs as [| f specs IH]; intros values acc ND OK Hacc HV.
  - inversion HV; subst. simpl. now rewrite app_nil_r.
  - inversion HV as [| ? v ? vs Hv HVs]; subst.
    inversion ND as [| ? ? Hk ND']; subst.
    inversion OK as [| ? ? [Hi Hp] OK']; subst.
    cbn [fillFields map combine]. rewrite Hv.
    rewrite set_new; [| apply Hacc; now left | exact Hi | exact Hp].
    rewrite (IH vs (acc ++ [(key f, v)]) ND' OK'); [| | exact HVs].
    + now rewrite <- app_assoc.
    + intros g Hg. rewrite keys_app, in_app_iff. simpl. intros [H | [H | []]].
      * apply (Hacc g); [now right | exact H].
      * apply Hk. rewrite H. now apply in_map.
Qed.

Lemma summaryLines_entries (fields : JSObject.t) (specs : list FieldConfig) :
  forall values : list string,
  NoDup (JSObject.keys fields) ->
  Forall2 (fun f v => In (key f, v) fields) specs values ->
  summaryLines specs fields
  = Some (map (fun kv => summaryLine (fst kv) (snd kv))
              (combine (map key specs) values)).
Proof.
  induction specs as [| f specs IH]; intros values ND HV.
  - inversion HV; subst. reflexivity.
  - inversion HV as [| ? v ? vs Hv HVs]; subst.
    cbn [summaryLines map combine]. unfold JSObject.interpolate.
    now rewrite (lookup_In _ _ _ ND Hv), (IH vs ND HVs).
Qed.

Lemma keys_combine (specs : list FieldConfig) (values : list string) :
  List.length values = List.length specs ->
  JSObject.keys (combine (map key specs) values) = map key specs.
Proof.
  revert values; induction specs as [| f specs IH]; intros [| v vs] H;
    simpl in *; try discriminate; [reflexivity |].
  f_equal. apply IH. congruence.
Qed.

Lemma entries_combine (specs : list FieldConfig) (values : list string) :
  List.length values = List.length specs ->
  Forall2 (fun f v => In (key f, v) (combine (map key specs) values))
          specs values.
Proof.
  revert values; induction specs as [| f specs IH]; intros [| v vs] H;
    simpl in *; try discriminate; constructor.
  - now left.
  - eapply Forall2_impl; [| apply IH; congruence].
    intros g w Hg. now right.
Qed.

(** *** Assignment keeps and adds own properties *)

Lemma lookup_update_same (o : JSObject.t) (k v w : string) :
  JSObject.lookup o k = Some w ->
  JSObject.lookup (JSObject.update o k v) k = Some v.
Proof.
  induction o as [| [k' v'] o IH]; simpl; [discriminate |].
  destruct (String.eqb_spec k' k) as [-> | N]; simpl.
  - now rewrite String.eqb_refl.
  - intros H. destruct (String.eqb_spec k' k); [contradiction | now apply IH].
Qed.

Lemma lookup_update_other (o : JSObject.t) (k v k' : string) :
  k' <> k ->
  JSObject.lookup (JSObject.update o k v) k' = JSObject.lookup o k'.
Proof.
  intros N.
  assert (E : String.eqb k k' = false) by (apply String.eqb_neq; congruence).
  induction o as [| [k0 v0] o IH]; simpl; [reflexivity |].
  destruct (String.eqb_spec k0 k) as [-> | N0]; simpl.
  - now rewrite E.
  - now rewrite IH.
Qed.

Lemma lookup_insertIndex_same (n : N) (o : JSObject.t) (k v : string) :
  JSObject.lookup o k = None ->
  JSObject.lookup (JSObject.insertIndex n k v o) k = Some v.
Proof.
  induction o as [| [k' v'] o IH]; simpl.
  - now rewrite String.eqb_refl.
  - destruct (String.eqb_spec k' k) as [-> | N0]; [discriminate |]. intros H.
    destruct (JSObject.arrayIndex k') as [m |];
      [destruct (m <? n)%N |]; simpl; rewrite ?String.eqb_refl; try reflexivity.
    destruct (String.eqb_spec k' k); [contradiction | now apply IH].
Qed.

Lemma lookup_insertIndex_other (n : N) (o : JSObject.t) (k v k' : string) :
  k' <> k ->
  JSObject.lookup (JSObject.insertIndex n k v o) k' = JSObject.lookup o k'.
Proof.
  intros N0. assert (E : String.eqb k k' = false) by (apply String.eqb_neq; congruence).
  induction o as [| [k0 v0] o IH]; simpl.
  - now rewrite E.
  - destruct (JSObject.arrayIndex k0) as [m |];
      [destruct (m <? n)%N |]; simpl; rewrite ?E; try reflexivity.
    now rewrite IH.
Qed.

Lemma lookup_app_last (o : JSObject.t) (k v k' : string) :
  JSObject.lookup (o ++ [(k, v)]) k'
  = match JSObject.lookup o k' with
    | Some w => Some w
    | None => if String.eqb k k' then Some v else None
    end.
Proof.
  induction o as [| [k0 v0] o IH]; simpl; [reflexivity |].
  destruct (String.eqb k0 k'); [reflexivity | exact IH].
Qed.

Lemma lookup_set_same (o : JSObject.t) (k v : string) :
  k <> JSObject.proto -> JSObject.lookup (JSObject.set o k v) k = Some v.
Proof.
  intros Hp. unfold JSObject.set.
  destruct (String.eqb_spec k JSObject.proto) as [E0 | _]; [contradiction |].
  destruct (JSObject.lookup o k) as [w |] eqn:L.
  - now apply (lookup_update_same o k v w).
  - destruct (JSObject.arrayIndex k) as [n |].
    + now apply lookup_insertIndex_same.
    + now rewrite lookup_app_last, L, String.eqb_refl.
Qed.

Lemma lookup_set_other (o : JSObject.t) (k v k' : string) :
  k' <> k -> JSObject.lookup (JSObject.set o k v) k' = JSObject.lookup o k'.
Proof.
  intros N0. unfold JSObject.set.
  destruct (String.eqb k JSObject.proto); [reflexivity |].
  destruct (JSObject.lookup o k) as [w |] eqn:L.
  - now apply lookup_update_other.
  - destruct (JSObject.arrayIndex k) as [n |].
    + now apply lookup_insertIndex_other.
    + rewrite lookup_app_last.
      destruct (JSObject.lookup o k'); [reflexivity |].
      destruct (String.eqb_spec k k'); [congruence | reflexivity].
Qed.

Lemma lookup_set_kept (o : JSObject.t) (k v k' : string) :
  JSObject.lookup o k' <> None ->
  JSObject.lookup (JSObject.set o k v) k' <> None.
Proof.
  intros H. destruct (string_dec k' k) as [-> | N0].
  - unfold JSObject.set.
    destruct (String.eqb k JSObject.proto); [exact H |].
    destruct (JSObject.lookup o k) as [w |] eqn:L; [| contradiction].
    rewrite (lookup_update_same o k v w L). discriminate.
  - now rewrite lookup_set_other.
Qed.

(** After the loop of lines 155-157 every key of the fields other than
    [__proto__] is an own property of the object. *)
Lemma fillFields_own (ls : list string) (specs : list FieldConfig) :
  forall (acc fields : JSObject.t),
  fillFields specs ls acc = Some fields ->
  forall k,
    JSObject.lookup acc k <> None \/ (In k (map key specs) /\ k <> JSObject.proto) ->
    JSObject.lookup fields k <> None.
Proof.
  induction specs as [| f specs IH]; intros acc fields H k Hk; cbn [fillFields] in H.
  - injection H as <-. destruct Hk as [Hk | [[] _]]. exact Hk.
  - destruct (extractFieldValue f ls) as [v |]; [| discriminate].
    apply (IH _ _ H k).
    destruct Hk as [Hk | [[Hk | Hk] Hp]].
    + left. now apply lookup_set_kept.
    + left. subst k. rewrite lookup_set_same by exact Hp. discriminate.
    + right. now split.
Qed.

Lemma fillFields_returns (ls : list string) (specs : list FieldConfig) :
  Forall (fun f => supported f = true) specs ->
  forall acc, exists fields, fillFields specs ls acc = Some fields.
Proof.
  induction 1 as [| f specs Hf _ IH]; intros acc; cbn [fillFields]; [eauto |].
  destruct (extractFieldValue_returns f ls Hf) as [v ->]. apply IH.
Qed.

Lemma summaryLines_returns (fields : JSObject.t) (specs : list FieldConfig) :
  (forall f, In f specs ->
             JSObject.lookup fields (key f) <> None \/ key f = JSObject.proto) ->
  exists ls, summaryLines specs fields = Some ls.
Proof.
  induction specs as [| f specs IH]; intros H; cbn [summaryLines]; [eauto |].
  destruct IH as [ls ->]; [intros g Hg; apply H; now right |].
  unfold JSObject.interpolate.
  destruct (H f (or_introl eq_refl)) as [Hf | Hf].
  - destruct (JSObject.lookup fields (key f)); [eauto | contradiction].
  - destruct (JSObject.lookup fields (key f)); [eauto |].
    rewrite Hf, String.eqb_refl. eauto.
Qed.

(** The object and the summary, given the value of each field. *)
Lemma extract_ordinary_keys (specs : list FieldConfig) (text : string)
    (values : list string) :
  NoDup (map key specs) ->
  Forall ordinaryKey specs ->
  Forall2 (fun f v => extractFieldValue f (Extractor.lines text) = Some v)
          specs values ->
  extract specs text
  = Some (combine (map key specs) values,
          join newline
            (map (fun kv => summaryLine (fst kv) (snd kv))
                 (combine (map key specs) values))).
Proof.
  intros ND OK HV.
  assert (Len : List.length values = List.length specs).
  { symmetry. eapply Forall2_length. exact HV. }
  unfold extract.
  rewrite (fillFields_append _ specs values JSObject.empty ND OK);
    [| intros f _ [] | exact HV].
  cbn [JSObject.empty app]. unfold fullText.
  rewrite (summaryLines_entries _ specs values).
  - reflexivity.
  - now rewrite keys_combine.
  - now apply entries_combine.
Qed.

Lemma importantFields_keys :
  NoDup (map key importantFields) /\ Forall ordinaryKey importantFields /\
  Forall (fun f => supported f = true) importantFields.
Proof.
  split; [| split].
  - repeat constructor; simpl; intuition discriminate.
  - repeat constructor; discriminate.
  - repeat constructor.
Qed.

End ObjectFacts.

(** ** The properties of the specification *)

Import JS Spec Notions JSFacts Extractor ExtractorFacts ObjectFacts.

(** *** Scenario A *)

(** C1, as the code has it: on the lines of Scenario A the field Model Name
    is "Acme X200" and the field Serial Number is "99AB221", because the
    hyphens of the serial number are removed together with the colon. *)
Theorem scenarioA_values :
  map (fun f => extractFieldValue f scenarioA_lines) scenarioA_specs
  = [Some "Acme X200"; Some "99AB221"] /\
  Extractor.lines (join newline scenarioA_lines) = scenarioA_lines /\
  option_map fst (extract scenarioA_specs (join newline scenarioA_lines))
  = Some [("Model Name", "Acme X200"); ("Serial Number", "99AB221")].
Proof. repeat split. Qed.

(** C1 as stated fails: the Serial Number of Scenario A is not
    "99-AB-221". *)
Lemma scenarioA_serial_keeps_no_hyphen :
  extractFieldValue (mkField "Serial Number" ["s/n"]) scenarioA_lines
  <> Some "99-AB-221".
Proof. vm_compute. discriminate. Qed.

(** *** The next-line fallback *)

(** C2, as the code has it: when the first line that contains a pattern
    case-insensitively does so for a first pattern written in lower case
    and in plain text, and the candidate value of that line is empty, the
    value is the line that follows it in the array, trimmed, and the
    sentinel when nothing follows.  No assumption is made on repetitions of
    the matching line further down. *)
Theorem empty_candidate_takes_next_line (cfg : FieldConfig)
    (lines before : list string) (line : string) (after pre : list string)
    (p : string) (post : list string) :
  firstMatch containsCI (patterns cfg) lines before line after pre p post ->
  lowerCase p = true ->
  plainText p = true ->
  candidateValue p line = EmptyString ->
  extractFieldValue cfg lines
  = Some (match after with
          | next :: _ => trim next
          | [] => NotFound
          end).
Proof.
  intros HM HLow HP HC.
  rewrite (extract_at_first_match _ _ _ _ _ _ _ _ (firstMatch_code _ _ _ _ _ _ _ _ HM HLow)).
  unfold valueFrom. rewrite (candidate_plainText _ _ HP), HC. cbn [truthy].
  destruct after; reflexivity.
Qed.

(** Scenario B, through the theorem for C2. *)
Lemma scenarioB_next_line :
  extractFieldValue (mkField "Model Number" ["model number"])
                    ["Model Number"; "MX-4410"]
  = Some "MX-4410".
Proof.
  apply (empty_candidate_takes_next_line
           (mkField "Model Number" ["model number"])
           ["Model Number"; "MX-4410"] [] "Model Number" ["MX-4410"]
           [] "model number" []).
  - repeat split; repeat constructor.
  - reflexivity.
  - reflexivity.
  - reflexivity.
Defined.

(** C2 as stated fails for a pattern with a capital letter and for a
    pattern with a RegExp wildcard.  The line "Model Number" contains the
    pattern "Model Number" and nothing is left of it, a line follows, and
    the code finds no match.  The line "--." contains the pattern "-." and
    nothing is left once that text and the punctuation are removed, a line
    follows, and the code returns ".": its RegExp removes "--". *)
Lemma fallback_missed_by_capital_or_wildcard :
  (containsCI "Model Number" "Model Number" = true /\
   candidateValue "Model Number" "Model Number" = EmptyString /\
   extractFieldValue (mkField "Model Number" ["Model Number"])
                     ["Model Number"; "MX-4410"] = Some NotFound /\
   trim "MX-4410" <> NotFound) /\
  (containsCI "--." "-." = true /\
   candidateValue "-." "--." = EmptyString /\
   extractFieldValue (mkField "Model Number" ["-."]) ["--."; "MX-4410"]
   = Some "." /\
   trim "MX-4410" <> ".").
Proof. repeat split; discriminate. Qed.

(** The matching line repeated below itself: the fallback still reads the
    line after its first occurrence. *)
Example fallback_with_repeated_line :
  extractFieldValue (mkField "Model Number" ["model number"])
                    ["Model Number"; "MX-4410"; "Model Number"; "ZZ-1"]
  = Some "MX-4410".
Proof. reflexivity. Qed.

(** The matching line is the last one: the sentinel. *)
Example fallback_on_last_line :
  extractFieldValue (mkField "Model Number" ["model number"])
                    ["MX-4410"; "Model Number"]
  = Some NotFound.
Proof. reflexivity. Qed.

(** *** The candidate value *)

(** C3, as the code has it: when the first line that contains a pattern
    case-insensitively does so for a first pattern written in lower case
    and in plain text, the candidate of lines 133-136 is that line with the
    case-insensitive occurrences of the pattern removed, then the
    punctuation removed, then trimmed, and when it is not empty it is the
    value returned. *)
Theorem candidate_of_plain_pattern (cfg : FieldConfig)
    (lines before : list string) (line : string) (after pre : list string)
    (p : string) (post : list string) :
  firstMatch containsCI (patterns cfg) lines before line after pre p post ->
  lowerCase p = true ->
  plainText p = true ->
  candidate p line = Some (candidateValue p line) /\
  (candidateValue p line <> EmptyString ->
   extractFieldValue cfg lines = Some (candidateValue p line)).
Proof.
  intros HM HLow HP.
  pose proof (candidate_plainText p line HP) as HC.
  split; [exact HC |].
  intros HN.
  rewrite (extract_at_first_match _ _ _ _ _ _ _ _ (firstMatch_code _ _ _ _ _ _ _ _ HM HLow)).
  unfold valueFrom. rewrite HC.
  apply truthy_true in HN. now rewrite HN.
Qed.

(** A pattern that occurs twice on its line, in both cases, is removed
    twice. *)
Lemma candidate_pattern_twice :
  candidate "model" "Model: ACME model-7" = Some "ACME 7" /\
  extractFieldValue (mkField "Model Name" ["model"]) ["Model: ACME model-7"]
  = Some "ACME 7".
Proof.
  pose proof (candidate_of_plain_pattern
                (mkField "Model Name" ["model"]) ["Model: ACME model-7"]
                [] "Model: ACME model-7" [] [] "model" []) as H.
  destruct H as [HC HV].
  - repeat split; repeat constructor.
  - reflexivity.
  - reflexivity.
  - split; [exact HC | apply HV; discriminate].
Defined.

(** C3 as stated fails for a pattern with a RegExp wildcard and for a
    pattern with a capital letter.  The pattern "no." is contained in the
    line "No. Nova 7", the line without the occurrences of that text is
    "Nova 7", and the code returns "a 7" because the dot also matches the
    "v" of "Nov".  The pattern "Model" is plain text and is contained in the
    line "Model: X200", the line without it is "X200", and the code finds no
    match. *)
Lemma candidate_of_wildcard_or_capital_pattern :
  (containsCI "No. Nova 7" "no." = true /\
   candidateValue "no." "No. Nova 7" = "Nova 7" /\
   candidate "no." "No. Nova 7" = Some "a 7" /\
   extractFieldValue (mkField "Serial Number" ["no."]) ["No. Nova 7"]
   = Some "a 7") /\
  (containsCI "Model: X200" "Model" = true /\
   plainText "Model" = true /\
   candidateValue "Model" "Model: X200" = "X200" /\
   extractFieldValue (mkField "Model Name" ["Model"]) ["Model: X200"]
   = Some NotFound).
Proof. repeat split. Qed.

(** *** Shape of the values *)

(** C4, as the code has it: on a sequence of non-empty trimmed lines every
    value returned is non-empty and trimmed, and it is the sentinel, or the
    candidate of some line and pattern, which has no punctuation, or a line
    of the sequence returned as it is by the fallback. *)
Theorem value_shape (cfg : FieldConfig) (lines : list string) (v : string) :
  Forall (fun l => isLine l = true) lines ->
  extractFieldValue cfg lines = Some v ->
  truthy v = true /\ trimmed v = true /\
  (v = NotFound \/
   (exists line p, In line lines /\ In p (patterns cfg) /\
                   candidate p line = Some v /\ noPunctuation v = true) \/
   In v lines).
Proof.
  intros HL HV. rewrite Forall_forall in HL.
  apply forLines_returned in HV.
  destruct HV as [-> | (line & p & Hl & Hp & HV)].
  - repeat split. now left.
  - unfold onMatch in HV.
    destruct (candidate p line) as [value |] eqn:HC; [| discriminate].
    destruct (truthy value) eqn:T; cbn [negb] in HV.
    + unfold or_else in HV. rewrite T in HV. injection HV as <-.
      assert (HS : exists s, value = trim (stripPunctuation s)).
      { unfold candidate in HC. destruct (RegExp_gi p); [| discriminate].
        injection HC as <-. eauto. }
      destruct HS as [s ->].
      split; [exact T |]. split; [apply trimmed_trim |].
      right; left. exists line, p. repeat split; try assumption.
      apply allChars_trim, noPunctuation_strip.
    + destruct (indexOf line lines <? Z.of_nat (List.length lines) - 1)%Z.
      * destruct (get lines (indexOf line lines + 1)) as [next |] eqn:G;
          [| discriminate].
        injection HV as <-. apply get_In in G.
        specialize (HL _ G). unfold isLine in HL.
        apply andb_true_iff in HL. destruct HL as [Tn Tr].
        rewrite (trim_fixed _ Tr). repeat split; try assumption.
        now right; right.
      * unfold or_else in HV. rewrite T in HV. injection HV as <-.
        repeat split. now left.
Qed.

Lemma value_shape_scenarioA :
  truthy "Acme X200" = true /\ trimmed "Acme X200" = true /\
  ("Acme X200" = NotFound \/
   (exists line p, In line scenarioA_lines /\ In p ["model"] /\
                   candidate p line = Some "Acme X200" /\
                   noPunctuation "Acme X200" = true) \/
   In "Acme X200" scenarioA_lines).
Proof.
  apply (value_shape (mkField "Model Name" ["model"]) scenarioA_lines).
  - repeat constructor.
  - reflexivity.
Defined.

(** C4 as stated fails: the value of Scenario B comes from the fallback,
    is not the sentinel and holds a hyphen. *)
Lemma fallback_value_keeps_punctuation :
  Forall (fun l => isLine l = true) ["Model Number"; "MX-4410"] /\
  extractFieldValue (mkField "Model Number" ["model number"])
                    ["Model Number"; "MX-4410"] = Some "MX-4410" /\
  "MX-4410" <> NotFound /\
  noPunctuation "MX-4410" = false.
Proof.
  split; [repeat constructor |].
  split; [reflexivity |]. split; [discriminate | reflexivity].
Qed.

(** *** First match wins *)

(** C5, as the code has it: when the first line that contains a pattern
    case-insensitively does so for a first pattern written in lower case,
    the value returned is computed from that line, that pattern and the line
    just after, and from nothing else; it is a string as soon as the RegExp
    of that pattern is modelled. *)
Theorem first_match_wins (cfg : FieldConfig)
    (lines before : list string) (line : string) (after pre : list string)
    (p : string) (post : list string) :
  firstMatch containsCI (patterns cfg) lines before line after pre p post ->
  lowerCase p = true ->
  extractFieldValue cfg lines = valueFrom line p (hd_error after) /\
  (RegExp_gi p <> None -> exists v, extractFieldValue cfg lines = Some v).
Proof.
  intros (Hl & Hp & Hb & Hpre & Hm) HLow.
  assert (E : extractFieldValue cfg lines = valueFrom line p (hd_error after)).
  { apply (extract_at_first_match cfg lines before line after pre p post).
    repeat split; try assumption.
    - eapply Forall_impl; [| exact Hb].
      intros l Hq. eapply Forall_impl; [| exact Hq].
      intros q. apply containsCI_false.
    - eapply Forall_impl; [| exact Hpre]. intros q. apply containsCI_false.
    - now rewrite <- containsCI_lowerCase. }
  split; [exact E |].
  intros Hre. rewrite E. unfold valueFrom, candidate.
  destruct (RegExp_gi p); [| contradiction].
  destruct (truthy _); [eauto |]. destruct (hd_error after); eauto.
Qed.

(** The second line and the second pattern are selected; the patterns and
    lines after them play no part. *)
Lemma first_match_wins_example :
  extractFieldValue (mkField "Serial Number" ["serial no"; "s/n"; "sn"])
                    ["ACME"; "S/N 12 sn"; "Serial No 99"]
  = valueFrom "S/N 12 sn" "s/n" (Some "Serial No 99") /\
  exists v,
    extractFieldValue (mkField "Serial Number" ["serial no"; "s/n"; "sn"])
                      ["ACME"; "S/N 12 sn"; "Serial No 99"] = Some v.
Proof.
  destruct (first_match_wins
              (mkField "Serial Number" ["serial no"; "s/n"; "sn"])
              ["ACME"; "S/N 12 sn"; "Serial No 99"]
              ["ACME"] "S/N 12 sn" ["Serial No 99"] ["serial no"] "s/n" ["sn"])
    as [E R].
  - repeat split; repeat constructor.
  - reflexivity.
  - split; [exact E | apply R; discriminate].
Defined.

(** C5 as stated fails for a pattern with a capital letter: the line
    contains it case-insensitively and the code finds no match. *)
Lemma capital_pattern_never_matches :
  containsCI "Model: X200" "Model" = true /\
  extractFieldValue (mkField "Model Name" ["Model"]) ["Model: X200"]
  = Some NotFound /\
  valueFrom "Model: X200" "Model" None = Some "X200".
Proof. repeat split. Qed.

(** *** No match *)

(** C8: when no line contains any pattern of the field, even
    case-insensitively, the value is the sentinel; the empty text has no
    line, so every field gets the sentinel. *)
Theorem no_match_not_found (cfg : FieldConfig) (ls : list string) :
  Forall (fun l => Forall (fun q => containsCI l q = false) (patterns cfg)) ls ->
  extractFieldValue cfg ls = Some NotFound /\
  Extractor.lines EmptyString = [] /\
  (forall f, extractFieldValue f (Extractor.lines EmptyString) = Some NotFound).
Proof.
  intros H. split; [| split; [reflexivity | intros f; reflexivity]].
  apply forLines_no_match.
  eapply Forall_impl; [| exact H].
  intros l Hq. eapply Forall_impl; [| exact Hq].
  intros q. apply containsCI_false.
Qed.

(** Scenario C, through the theorem for C8. *)
Lemma scenarioC_not_found :
  extractFieldValue (mkField "Serial Number" ["serial"; "s/n"])
                    ["Random text only"] = Some NotFound.
Proof.
  apply (no_match_not_found (mkField "Serial Number" ["serial"; "s/n"])
                            ["Random text only"]).
  repeat constructor.
Defined.

(** *** The result object and the summary *)

(** C6, as the code has it: when the keys of the configured fields are
    pairwise distinct and none is an array index or [__proto__], the
    [fields] object has one entry per field, in the order of the
    configuration, holding the value extracted for that field, and the
    summary is the lines ["<key>: <value>"] of these entries, in the same
    order, joined by a newline. *)
Theorem fields_and_summary (specs : list FieldConfig) (text : string) :
  NoDup (map key specs) ->
  Forall ordinaryKey specs ->
  Forall (fun f => supported f = true) specs ->
  exists values,
    Forall2 (fun f v => extractFieldValue f (Extractor.lines text) = Some v)
            specs values /\
    extract specs text
    = Some (combine (map key specs) values,
            join newline
              (map (fun kv => summaryLine (fst kv) (snd kv))
                   (combine (map key specs) values))).
Proof.
  intros ND OK Sup.
  destruct (values_exist specs (Extractor.lines text) Sup) as [values HV].
  exists values. split; [exact HV |].
  now apply extract_ordinary_keys.
Qed.

(** The configured fields on a three-line text, through the theorem for
    C6. *)
Lemma fields_and_summary_configured :
  exists values,
    Forall2 (fun f v => extractFieldValue f (Extractor.lines sampleText) = Some v)
            importantFields values /\
    extract importantFields sampleText
    = Some (combine (map key importantFields) values,
            join newline
              (map (fun kv => summaryLine (fst kv) (snd kv))
                   (combine (map key importantFields) values))).
Proof.
  apply (fields_and_summary importantFields sampleText).
  - repeat constructor; simpl; intuition discriminate.
  - repeat constructor; discriminate.
  - repeat constructor.
Defined.

Example configured_on_sampleText :
  extract importantFields sampleText
  = Some ([("Model Name", "Foo"); ("Model Number", NotFound);
           ("Serial Number", "12-3")],
          ("Model Name: Foo" ++ newline ++ "Model Number: Not found"
             ++ newline ++ "Serial Number: 12-3")%string).
Proof. reflexivity. Qed.

(** C6 as stated fails when two fields share a key: the object has one
    entry for the two of them, and both lines of the summary show the value
    of the second. *)
Lemma shared_key_single_entry :
  map (fun f => extractFieldValue f ["Model: A"; "Type: B"])
      [mkField "Model" ["model"]; mkField "Model" ["type"]]
  = [Some "A"; Some "B"] /\
  extract [mkField "Model" ["model"]; mkField "Model" ["type"]]
          ("Model: A" ++ newline ++ "Type: B")%string
  = Some ([("Model", "B")], ("Model: B" ++ newline ++ "Model: B")%string).
Proof. split; reflexivity. Qed.

(** An array-index key moves in front of the keys created before it. *)
Example index_key_goes_first :
  option_map fst
    (extract [mkField "Model" ["model"]; mkField "7" ["type"]]
             ("Model: A" ++ newline ++ "Type: B")%string)
  = Some [("7", "B"); ("Model", "A")].
Proof. reflexivity. Qed.

(** *** The line clean-up *)

(** C7: the clean-up is a total function; the text is in one way a
    sequence of newline-free segments separated by newlines, and the result
    is these segments trimmed, those left empty dropped, in their order;
    every line of the result is non-empty and trimmed. *)
Theorem lines_normalized (text : string) :
  (exists segs, segs <> [] /\ Forall noLF segs /\ join newline segs = text) /\
  (forall segs, segs <> [] -> Forall noLF segs -> join newline segs = text ->
                Extractor.lines text = filter truthy (map trim segs)) /\
  Forall (fun l => isLine l = true) (Extractor.lines text).
Proof.
  split; [| split].
  - exists (split LF text). split; [apply split_not_nil |].
    split; [apply split_no_sep | apply join_split].
  - intros segs Hne Hno <-. unfold Extractor.lines, newline.
    now rewrite split_join.
  - apply Forall_forall. intros l Hl. unfold Extractor.lines in Hl.
    apply filter_In in Hl. destruct Hl as [Hin T].
    apply in_map_iff in Hin. destruct Hin as (seg & <- & _).
    unfold isLine. now rewrite T, trimmed_trim.
Qed.

Example lines_of_sample :
  Extractor.lines
    (String "009" "Model: X " ++ newline ++ "   " ++ newline ++ newline
       ++ "S/N 7" ++ String "013" newline)%string
  = ["Model: X"; "S/N 7"].
Proof. reflexivity. Qed.

(** *** The sentinel is an ordinary string *)

(** C9: the value found on a line that contains the pattern is the
    candidate of that line when it is not empty and otherwise the next line
    as it is, so it can be the very string of the sentinel: the candidate
    of "Model: Not found" is that string, and so is the line after "Model";
    the object and the summary are then those of a text where nothing
    matches, whereas another value on the same line is kept. *)
Theorem found_value_equal_to_sentinel :
  (forall line v,
      lineIncludes line "model" = true ->
      candidate "model" line = Some v -> truthy v = true ->
      extractFieldValue (mkField "Model Name" ["model"]) [line] = Some v) /\
  (containsCI "Model: Not found" "model" = true /\
   candidate "model" "Model: Not found" = Some NotFound /\
   extractFieldValue (mkField "Model Name" ["model"]) ["Model: Not found"]
   = Some NotFound) /\
  (containsCI "Model" "model" = true /\
   candidate "model" "Model" = Some EmptyString /\
   (forall next,
       extractFieldValue (mkField "Model Name" ["model"]) ["Model"; next]
       = Some (trim next)) /\
   trim "Not found" = NotFound) /\
  (containsCI "No label here" "model" = false /\
   extractFieldValue (mkField "Model Name" ["model"]) ["No label here"]
   = Some NotFound) /\
  (extractFieldValue (mkField "Model Name" ["model"]) ["Model: X200"]
   = Some "X200" /\
   extract [mkField "Model Name" ["model"]] "Model: X200"
   = Some ([("Model Name", "X200")], "Model Name: X200")) /\
  (extract [mkField "Model Name" ["model"]] "Model: Not found"
   = Some ([("Model Name", NotFound)], "Model Name: Not found") /\
   extract [mkField "Model Name" ["model"]] "No label here"
   = Some ([("Model Name", NotFound)], "Model Name: Not found") /\
   extract importantFields "Model Name: Not found"
   = extract importantFields "No label here").
Proof.
  split; [| repeat split].
  intros line v Hm Hc Ht.
  rewrite (extract_at_first_match
             (mkField "Model Name" ["model"]) [line] [] line [] [] "model" []).
  - unfold valueFrom. now rewrite Hc, Ht.
  - repeat split; [constructor | constructor | exact Hm].
Qed.

(** *** No runtime error *)

(** X1: with patterns the modelled RegExp covers, the extraction returns an
    object and a summary for every list of fields and every text: the line
    read by the fallback is always defined, and every key interpolated into
    the summary, [__proto__] apart, is an own property of the object. *)
Theorem extraction_returns (specs : list FieldConfig) (text : string) :
  Forall (fun f => supported f = true) specs ->
  exists fields summary,
    extract specs text = Some (fields, summary) /\
    (forall f, In f specs -> key f <> JSObject.proto ->
               JSObject.lookup fields (key f) <> None).
Proof.
  intros Sup. unfold extract.
  destruct (fillFields_returns (Extractor.lines text) specs Sup JSObject.empty)
    as [fields HF].
  rewrite HF.
  assert (Own : forall f, In f specs -> key f <> JSObject.proto ->
                          JSObject.lookup fields (key f) <> None).
  { intros f Hf Hp. apply (fillFields_own _ _ _ _ HF). right.
    split; [now apply in_map | exact Hp]. }
  destruct (summaryLines_returns fields specs) as [ls HS].
  { intros f Hf. destruct (string_dec (key f) JSObject.proto) as [E | N0];
      [now right | left; now apply Own]. }
  unfold fullText. rewrite HS. simpl. eauto.
Qed.

(** Fields with a shared key, an array-index key and [__proto__], through
    the theorem above. *)
Lemma extraction_returns_odd_keys :
  exists fields summary,
    extract [mkField "Model" ["model"]; mkField "7" ["type"];
             mkField "Model" ["no."]; mkField "__proto__" ["model"]]
            sampleText
    = Some (fields, summary) /\
    (forall f,
        In f [mkField "Model" ["model"]; mkField "7" ["type"];
              mkField "Model" ["no."]; mkField "__proto__" ["model"]] ->
        key f <> JSObject.proto ->
        JSObject.lookup fields (key f) <> None).
Proof.
  apply (extraction_returns
           [mkField "Model" ["model"]; mkField "7" ["type"];
            mkField "Model" ["no."]; mkField "__proto__" ["model"]]
           sampleText).
  repeat constructor.
Defined.

(** ** Further facts about the built-ins and the loops *)

Module MoreFacts.

Import JS Spec Notions JSFacts Extractor ExtractorFacts ObjectFacts.

Lemma append_assoc (a b c : string) :
  ((a ++ b) ++ c = a ++ (b ++ c))%string.
Proof. induction a as [| x a IH]; simpl; [reflexivity | now rewrite IH]. Qed.

Lemma allChars_app (p : ascii -> bool) (a b : string) :
  allChars p (a ++ b) = allChars p a && allChars p b.
Proof.
  induction a as [| c a IH]; simpl; [reflexivity |].
  now rewrite IH, andb_assoc.
Qed.

Lemma allChars_dropMatches (p : ascii -> bool) (re : regexp) (s : string) :
  forall k, allChars p s = true -> allChars p (dropMatches re k s) = true.
Proof.
  induction s as [| c s IH]; intros k H; [reflexivity |].
  simpl in H. apply andb_true_iff in H. destruct H as [Hc Hs].
  cbn [dropMatches]. destruct k as [| k]; [| now apply IH].
  destruct (matchesAt re (String c s)); [destruct (List.length re) |];
    simpl; rewrite ?Hc; simpl; now apply IH.
Qed.

Lemma allChars_stripPunctuation (p : ascii -> bool) (s : string) :
  allChars p s = true -> allChars p (stripPunctuation s) = true.
Proof.
  induction s as [| c s IH]; simpl; [reflexivity |].
  rewrite andb_true_iff. intros [Hc Hs].
  destruct (isPunctuation c); simpl; rewrite ?Hc; simpl; now apply IH.
Qed.

(** *** The cleaned lines *)

Lemma lines_isLine (text : string) :
  Forall (fun l => isLine l = true) (Extractor.lines text).
Proof.
  apply Forall_forall. intros l Hl. unfold Extractor.lines in Hl.
  apply filter_In in Hl. destruct Hl as [Hin T].
  apply in_map_iff in Hin. destruct Hin as (seg & <- & _).
  unfold isLine. now rewrite T, trimmed_trim.
Qed.

Lemma lines_noLF (text : string) : Forall noLF (Extractor.lines text).
Proof.
  apply Forall_forall. intros l Hl. unfold Extractor.lines in Hl.
  apply filter_In in Hl. destruct Hl as [Hin _].
  apply in_map_iff in Hin. destruct Hin as (seg & <- & Hseg).
  pose proof (split_no_sep LF text) as H. rewrite Forall_forall in H.
  apply allChars_trim. now apply H.
Qed.

Lemma clean_lines_fixed (ls : list string) :
  Forall (fun l => isLine l = true) ls ->
  filter truthy (map trim ls) = ls.
Proof.
  induction 1 as [| l ls Hl _ IH]; simpl; [reflexivity |].
  unfold isLine in Hl. apply andb_true_iff in Hl. destruct Hl as [T Tr].
  now rewrite (trim_fixed _ Tr), T, IH.
Qed.

Lemma lines_join (ls : list string) :
  Forall (fun l => isLine l = true) ls -> Forall noLF ls ->
  Extractor.lines (join newline ls) = ls.
Proof.
  intros HL HN. destruct ls as [| l ls]; [reflexivity |].
  unfold Extractor.lines, newline.
  rewrite split_join; [| discriminate | exact HN].
  now apply clean_lines_fixed.
Qed.

(** *** No value holds a newline *)

Lemma candidate_noLF (p line v : string) :
  noLF line -> candidate p line = Some v -> noLF v.
Proof.
  unfold candidate, noLF. intros H. destruct (RegExp_gi p) as [re |]; [| discriminate].
  intros E. injection E as <-.
  apply allChars_trim, allChars_stripPunctuation.
  unfold replaceAll_empty. now apply allChars_dropMatches.
Qed.

Lemma extractFieldValue_noLF (f : FieldConfig) (ls : list string) (v : string) :
  Forall noLF ls -> extractFieldValue f ls = Some v -> noLF v.
Proof.
  intros HN HV. rewrite Forall_forall in HN.
  apply forLines_returned in HV.
  destruct HV as [-> | (line & p & Hl & Hp & HV)]; [reflexivity |].
  unfold onMatch in HV.
  destruct (candidate p line) as [value |] eqn:HC; [| discriminate].
  pose proof (candidate_noLF _ _ _ (HN _ Hl) HC) as Hv.
  destruct (truthy value) eqn:T; cbn [negb] in HV.
  - unfold or_else in HV. rewrite T in HV. now injection HV as <-.
  - destruct (indexOf line ls <? Z.of_nat (List.length ls) - 1)%Z.
    + destruct (get ls (indexOf line ls + 1)) as [next |] eqn:G; [| discriminate].
      injection HV as <-. apply get_In in G.
      apply allChars_trim. now apply HN.
    + unfold or_else in HV. rewrite T in HV. now injection HV as <-.
Qed.

(** *** A first match exists unless nothing matches *)

Lemma first_pattern (test : string -> string -> bool) (line : string)
    (pats : list string) :
  Forall (fun q => test line q = false) pats \/
  exists pre p post,
    pats = pre ++ p :: post /\
    Forall (fun q => test line q = false) pre /\ test line p = true.
Proof.
  induction pats as [| q pats IH]; [left; constructor |].
  destruct (test line q) eqn:E.
  - right. exists [], q, pats. repeat split; [constructor | exact E].
  - destruct IH as [IH | (pre & p & post & -> & Hpre & Hp)].
    + left. now constructor.
    + right. exists (q :: pre), p, post. repeat split; [now constructor | exact Hp].
Qed.

Lemma first_line (test : string -> string -> bool) (pats ls : list string) :
  Forall (fun l => Forall (fun q => test l q = false) pats) ls \/
  exists before line after pre p post,
    firstMatch test pats ls before line after pre p post.
Proof.
  induction ls as [| l ls IH]; [left; constructor |].
  destruct (first_pattern test l pats) as [Hl | (pre & p & post & E & Hpre & Hp)].
  - destruct IH as [IH | (before & line & after & pre & p & post & HM)].
    + left. now constructor.
    + right. destruct HM as (E1 & E2 & Hb & Hpre & Hp).
      exists (l :: before), line, after, pre, p, post.
      repeat split; try assumption; [now rewrite E1 | now constructor].
  - right. exists [], l, ls, pre, p, post.
    repeat split; try assumption. constructor.
Qed.

Lemma includes_trans (s p q : string) :
  includes s p = true -> includes p q = true -> includes s q = true.
Proof.
  rewrite !includes_app. intros (a & b & ->) (a' & b' & ->).
  exists (a ++ a')%string, (b' ++ b)%string.
  now rewrite !append_assoc.
Qed.

End MoreFacts.

(** ** Further properties of the extraction (part_000) *)

Import MoreFacts View.

(** X2: a sequence of non-empty, trimmed lines without newline, joined by
    newlines, is cleaned back into itself. *)
Theorem lines_of_joined_lines (ls : list string) :
  Forall (fun l => isLine l = true) ls -> Forall noLF ls ->
  Extractor.lines (join newline ls) = ls.
Proof. apply lines_join. Qed.

Lemma lines_of_joined_scenarioA :
  Extractor.lines (join newline scenarioA_lines) = scenarioA_lines.
Proof.
  apply (lines_of_joined_lines scenarioA_lines); repeat constructor.
Defined.

(** X3: cleaning a text that is already cleaned changes nothing, and the
    extraction gives the same object and summary on the text and on its
    cleaned lines joined by newlines: blank lines and the whitespace around
    a line play no part. *)
Theorem cleaned_text_same_result (specs : list FieldConfig) (text : string) :
  Extractor.lines (join newline (Extractor.lines text)) = Extractor.lines text /\
  extract specs (join newline (Extractor.lines text)) = extract specs text.
Proof.
  assert (E : Extractor.lines (join newline (Extractor.lines text))
              = Extractor.lines text)
    by (apply lines_join; [apply lines_isLine | apply lines_noLF]).
  split; [exact E |]. unfold extract. now rewrite E.
Qed.

(** X4: when the fields are not empty and their keys are distinct ordinary
    keys without newline, splitting the summary at the newlines gives back
    the entries of the object, one ["<key>: <value>"] per entry in their
    order: no value holds a newline. *)
Theorem summary_splits_into_entries (specs : list FieldConfig) (text : string) :
  specs <> [] ->
  NoDup (map key specs) ->
  Forall ordinaryKey specs ->
  Forall (fun f => supported f = true) specs ->
  Forall (fun f => noLF (key f)) specs ->
  exists fields summary,
    extract specs text = Some (fields, summary) /\
    map fst fields = map key specs /\
    split LF summary = map (fun kv => summaryLine (fst kv) (snd kv)) fields.
Proof.
  intros NE ND OK Sup KN.
  destruct (values_exist specs (Extractor.lines text) Sup) as [values HV].
  exists (combine (map key specs) values), 
    (join newline (map (fun kv => summaryLine (fst kv) (snd kv))
                       (combine (map key specs) values))).
  assert (Len : List.length values = List.length specs)
    by (symmetry; eapply Forall2_length; exact HV).
  split; [now apply extract_ordinary_keys |].
  split; [now apply keys_combine |].
  unfold newline. apply split_join.
  - destruct specs as [| f specs]; [contradiction |].
    destruct values as [| v values]; discriminate.
  - clear NE ND OK Sup Len. induction HV as [| f v specs values Hv _ IH]; simpl.
    + constructor.
    + inversion KN as [| ? ? Kf KN']; subst. constructor; [| now apply IH].
      cbn [fst snd]. unfold summaryLine. rewrite !allChars_app.
      pose proof (extractFieldValue_noLF _ _ _ (lines_noLF text) Hv) as Nv.
      unfold noLF in Kf, Nv. now rewrite Kf, Nv.
Qed.

Lemma summary_splits_configured :
  exists fields summary,
    extract importantFields sampleText = Some (fields, summary) /\
    map fst fields = map key importantFields /\
    split LF summary = map (fun kv => summaryLine (fst kv) (snd kv)) fields.
Proof.
  apply (summary_splits_into_entries importantFields sampleText).
  - discriminate.
  - apply importantFields_keys.
  - apply importantFields_keys.
  - apply importantFields_keys.
  - repeat constructor.
Defined.

(** X5: the two loops amount to a search: either no line includes any
    pattern of the field and the value is the sentinel, or there is a first
    line that includes a pattern, with a first such pattern, and the value
    is computed from them and from the next line. *)
Theorem no_match_or_first_match (cfg : FieldConfig) (ls : list string) :
  (Forall (fun l => Forall (fun q => lineIncludes l q = false) (patterns cfg)) ls
   /\ extractFieldValue cfg ls = Some NotFound) \/
  (exists before line after pre p post,
      firstMatch lineIncludes (patterns cfg) ls before line after pre p post /\
      extractFieldValue cfg ls = valueFrom line p (hd_error after)).
Proof.
  destruct (first_line lineIncludes (patterns cfg) ls)
    as [H | (before & line & after & pre & p & post & HM)].
  - left. split; [exact H | now apply forLines_no_match].
  - right. exists before, line, after, pre, p, post.
    split; [exact HM | exact (extract_at_first_match _ _ _ _ _ _ _ _ HM)].
Qed.

(** X6: a pattern that occurs inside another text captures the lines that
    contain that text: if a pattern [pf] of the field occurs in [pg] and a
    line includes [pg], then the field has a match, on that line or on an
    earlier one, and its value is computed there. *)
Theorem shorter_pattern_captures (f : FieldConfig) (pf pg l : string)
    (ls : list string) :
  In pf (patterns f) ->
  includes pg pf = true ->
  In l ls ->
  lineIncludes l pg = true ->
  exists before line after pre p post,
    firstMatch lineIncludes (patterns f) ls before line after pre p post /\
    In l (line :: after) /\
    extractFieldValue f ls = valueFrom line p (hd_error after).
Proof.
  intros Hpf Hsub Hl Hpg.
  assert (Hm : lineIncludes l pf = true)
    by (unfold lineIncludes in *; eapply includes_trans; eassumption).
  assert (Hno : forall xs, In l xs ->
            ~ Forall (fun x => Forall (fun q => lineIncludes x q = false)
                                      (patterns f)) xs).
  { intros xs Hin HF. rewrite Forall_forall in HF. specialize (HF _ Hin).
    rewrite Forall_forall in HF. specialize (HF _ Hpf). congruence. }
  destruct (first_line lineIncludes (patterns f) ls)
    as [H | (before & line & after & pre & p & post & HM)].
  - exfalso. exact (Hno ls Hl H).
  - exists before, line, after, pre, p, post.
    split; [exact HM |].
    split; [| exact (extract_at_first_match _ _ _ _ _ _ _ _ HM)].
    destruct HM as (E & _ & Hb & _). rewrite E in Hl.
    apply in_app_or in Hl. destruct Hl as [Hl | Hl]; [| exact Hl].
    exfalso. exact (Hno before Hl Hb).
Qed.

(** The pattern "model" of Model Name occurs in the pattern "model number"
    of Model Number: a Model Number line gives Model Name a value. *)
Lemma model_number_line_names_the_model :
  exists before line after pre p post,
    firstMatch lineIncludes ["model name"; "model"; "product"]
               ["ACME Corp"; "Model Number: MX-1"]
               before line after pre p post /\
    In "Model Number: MX-1" (line :: after) /\
    extractFieldValue (mkField "Model Name" ["model name"; "model"; "product"])
                      ["ACME Corp"; "Model Number: MX-1"]
    = valueFrom line p (hd_error after).
Proof.
  apply (shorter_pattern_captures
           (mkField "Model Name" ["model name"; "model"; "product"])
           "model" "model number" "Model Number: MX-1"
           ["ACME Corp"; "Model Number: MX-1"]).
  - right; left; reflexivity.
  - reflexivity.
  - right; left; reflexivity.
  - reflexivity.
Defined.

Example model_name_from_model_number_line :
  extract importantFields "Model Number: MX-1"
  = Some ([("Model Name", "Number MX1"); ("Model Number", "MX1");
           ("Serial Number", NotFound)],
          ("Model Name: Number MX1" ++ newline ++ "Model Number: MX1"
             ++ newline ++ "Serial Number: Not found")%string).
Proof. reflexivity. Qed.

(** X7: after an extraction with the configured fields the results panel
    is shown, whatever the recognised text, with exactly three rows, Model
    Name, Model Number and Serial Number in this order, each holding the
    value extracted for its field; the component is no longer processing
    and the progress is untouched. *)
Theorem results_panel_after_extraction (st : State) (text : string) :
  exists st' values,
    extractText importantFields st text = Some st' /\
    Forall2 (fun f v => extractFieldValue f (Extractor.lines text) = Some v)
            importantFields values /\
    showResults st' = true /\
    fieldRows st' = combine ["Model Name"; "Model Number"; "Serial Number"] values /\
    isProcessing st' = false /\
    progress st' = progress st.
Proof.
  destruct importantFields_keys as (ND & OK & Sup).
  destruct (values_exist importantFields (Extractor.lines text) Sup)
    as [values HV].
  pose proof (extract_ordinary_keys _ text _ ND OK HV) as E.
  unfold extractText. rewrite E.
  eexists. exists values. split; [reflexivity |]. split; [exact HV |].
  unfold importantFields in HV.
  inversion HV as [| ? v1 ? r1 _ HV1]; subst.
  inversion HV1 as [| ? v2 ? r2 _ HV2]; subst.
  inversion HV2 as [| ? v3 ? r3 _ HV3]; subst.
  inversion HV3; subst.
  repeat split.
Qed.

(** ** Facts about the values-only component *)

Module ValuesOnlyFacts.

Import JS Spec Notions MoreNotions JSFacts Extractor ExtractorFacts MoreFacts.
Import ValuesOnly.

Lemma truthy_trim_eqb (l : string) :
  negb (String.eqb (trim l) EmptyString) = truthy (trim l).
Proof. destruct (trim l); reflexivity. Qed.

Lemma map_trim_extractedInfo (text : string) :
  map trim (extractedInfo text) = Extractor.lines text.
Proof.
  unfold extractedInfo, Extractor.lines.
  induction (split LF text) as [| l ls IH]; simpl; [reflexivity |].
  rewrite truthy_trim_eqb. destruct (truthy (trim l)); simpl; now rewrite IH.
Qed.

Lemma extractedInfo_noLF (text : string) : Forall noLF (extractedInfo text).
Proof.
  apply Forall_forall. intros l Hl. unfold extractedInfo in Hl.
  apply filter_In in Hl. destruct Hl as [Hin _].
  pose proof (split_no_sep LF text) as H. rewrite Forall_forall in H.
  now apply H.
Qed.

Lemma allChars_stripColons (p : ascii -> bool) (s : string) :
  allChars p s = true -> allChars p (stripColons s) = true.
Proof.
  induction s as [| c s IH]; simpl; [reflexivity |].
  rewrite andb_true_iff. intros [Hc Hs].
  destruct (Ascii.eqb c ":"%char); simpl; rewrite ?Hc; simpl; now apply IH.
Qed.

Lemma noColon_stripColons (s : string) : noColon (stripColons s) = true.
Proof.
  unfold noColon. induction s as [| c s IH]; simpl; [reflexivity |].
  destruct (Ascii.eqb c ":"%char) eqn:E; [exact IH | simpl; now rewrite E, IH].
Qed.

(** *** The case of the keyword *)

Lemma dot_toLowerCaseChar (c : ascii) :
  Ascii.eqb (toLowerCaseChar c) "."%char = Ascii.eqb c "."%char.
Proof. each_ascii c; reflexivity. Qed.

Lemma syntax_toLowerCaseChar (c : ascii) :
  isSyntaxCharacter (toLowerCaseChar c) = isSyntaxCharacter c.
Proof. each_ascii c; reflexivity. Qed.

Lemma RegExp_gi_same_lower (k1 : string) :
  forall k2, toLowerCase k1 = toLowerCase k2 ->
  match RegExp_gi k1, RegExp_gi k2 with
  | Some r1, Some r2 => Forall2 sameAtom r1 r2
  | None, None => True
  | _, _ => False
  end.
Proof.
  induction k1 as [| c1 k1 IH]; intros [| c2 k2] H; simpl in H;
    try discriminate; [simpl; constructor |].
  injection H as Hc Hk. specialize (IH k2 Hk). cbn [RegExp_gi].
  destruct (RegExp_gi k1) as [r1 |], (RegExp_gi k2) as [r2 |];
    try contradiction; [| exact I].
  rewrite <- (dot_toLowerCaseChar c1), <- (dot_toLowerCaseChar c2),
    <- (syntax_toLowerCaseChar c1), <- (syntax_toLowerCaseChar c2), Hc.
  destruct (Ascii.eqb (toLowerCaseChar c2) "."%char).
  - constructor; [exact I | exact IH].
  - destruct (isSyntaxCharacter (toLowerCaseChar c2)); [exact I |].
    constructor; [| exact IH]. simpl.
    now rewrite <- (Canonicalize_toLowerCaseChar c1), Hc,
      Canonicalize_toLowerCaseChar.
Qed.

Lemma matchesAt_same (r1 r2 : regexp) :
  Forall2 sameAtom r1 r2 -> forall s, matchesAt r1 s = matchesAt r2 s.
Proof.
  induction 1 as [| a b r1 r2 Hab _ IH]; intros s; [reflexivity |].
  destruct s as [| c s]; [reflexivity |]. cbn [matchesAt]. rewrite IH.
  destruct a, b; simpl in Hab; try contradiction; simpl; now rewrite ?Hab.
Qed.

Lemma dropMatches_same (r1 r2 : regexp) (s : string) :
  Forall2 sameAtom r1 r2 ->
  forall k, dropMatches r1 k s = dropMatches r2 k s.
Proof.
  intros H. induction s as [| c s IH]; intros k; [reflexivity |].
  cbn [dropMatches]. destruct k as [| k]; [| apply IH].
  rewrite (matchesAt_same _ _ H), (Forall2_length H).
  destruct (matchesAt r2 (String c s)); [destruct (List.length r2) |];
    now rewrite IH.
Qed.

Lemma valueOf_same_lower (k1 k2 line : string) :
  toLowerCase k1 = toLowerCase k2 -> valueOf k1 line = valueOf k2 line.
Proof.
  intros H. unfold valueOf. pose proof (RegExp_gi_same_lower k1 k2 H) as R.
  destruct (RegExp_gi k1) as [r1 |], (RegExp_gi k2) as [r2 |];
    try contradiction; [| reflexivity].
  unfold replaceAll_empty. now rewrite (dropMatches_same r1 r2 line R).
Qed.

(** *** The loop *)

Lemma search_skip (k : string) (before rest : list string) :
  Forall (fun l => containsCI l k = false) before ->
  searchStringInArray k (before ++ rest) = searchStringInArray k rest.
Proof.
  induction 1 as [| l before Hl _ IH]; simpl; [reflexivity |].
  unfold containsCI in Hl. now rewrite Hl.
Qed.

Lemma search_returned (k : string) (ls : list string) (v : string) :
  searchStringInArray k ls = Some v ->
  v = NotFound \/
  exists line value, In line ls /\ valueOf k line = Some value /\
                     v = or_else value NotFound.
Proof.
  induction ls as [| l ls IH]; simpl.
  - intros H. injection H as <-. now left.
  - destruct (includes (toLowerCase l) (toLowerCase k)).
    + destruct (valueOf k l) as [value |] eqn:E; [| discriminate].
      intros H. injection H as <-. right. exists l, value.
      repeat split; [now left | exact E].
    + intros H. destruct (IH H) as [-> | (line & value & Hl & Hv & ->)];
        [now left |].
      right. exists line, value. repeat split; [now right | exact Hv].
Qed.

Lemma search_returns (k : string) (ls : list string) :
  supportedKeyword k = true -> exists v, searchStringInArray k ls = Some v.
Proof.
  unfold supportedKeyword. intros H.
  induction ls as [| l ls IH]; simpl; [eauto |].
  destruct (includes (toLowerCase l) (toLowerCase k)); [| exact IH].
  unfold valueOf. destruct (RegExp_gi k); [eauto | discriminate].
Qed.

Lemma search_noLF (k : string) (ls : list string) (v : string) :
  Forall noLF ls -> searchStringInArray k ls = Some v -> noLF v.
Proof.
  intros HN HV. rewrite Forall_forall in HN.
  apply search_returned in HV.
  destruct HV as [-> | (line & value & Hl & Hv & ->)]; [reflexivity |].
  unfold or_else. destruct (truthy value); [| reflexivity].
  unfold valueOf in Hv. destruct (RegExp_gi k) as [re |]; [| discriminate].
  injection Hv as <-. unfold noLF.
  apply allChars_trim, allChars_stripColons.
  unfold replaceAll_empty. apply allChars_dropMatches. now apply HN.
Qed.

(** *** The stored text *)

Lemma appendValues_valueLines (ls ks : list string) :
  forall (values : list string) (result : string),
  Forall2 (fun k v => searchStringInArray k ls = Some v) ks values ->
  appendValues ks ls result = Some (result ++ valueLines values)%string.
Proof.
  induction ks as [| k ks IH]; intros values result H.
  - inversion H; subst. simpl.
    assert (E : forall s : string, (s ++ EmptyString)%string = s)
      by (induction s as [| c s IHs]; simpl; congruence).
    now rewrite E.
  - inversion H as [| ? v ? vs Hv Hvs]; subst.
    cbn [appendValues valueLines]. rewrite Hv, (IH vs _ Hvs).
    now rewrite !append_assoc.
Qed.

Lemma split_value_line (v rest : string) :
  noLF v -> split LF (v ++ newline ++ rest) = v :: split LF rest.
Proof.
  unfold noLF. induction v as [| c v IH]; intros H.
  - simpl. reflexivity.
  - simpl in H. apply andb_true_iff in H. destruct H as [Hc Hv].
    apply negb_true_iff in Hc.
    change ((String c v ++ newline ++ rest)%string)
      with (String c (v ++ newline ++ rest)).
    cbn [split]. now rewrite Hc, (IH Hv).
Qed.

Lemma split_valueLines (values : list string) :
  Forall noLF values ->
  split LF (valueLines values) = values ++ [EmptyString].
Proof.
  induction 1 as [| v values Hv _ IH]; [reflexivity |].
  cbn [valueLines app]. now rewrite (split_value_line _ _ Hv), IH.
Qed.

Lemma keyword_values_exist (ks ls : list string) :
  Forall (fun k => supportedKeyword k = true) ks ->
  exists values,
    Forall2 (fun k v => searchStringInArray k ls = Some v) ks values.
Proof.
  induction 1 as [| k ks Hk _ [values IH]].
  - exists []. constructor.
  - destruct (search_returns k ls Hk) as [v Hv].
    exists (v :: values). now constructor.
Qed.

End ValuesOnlyFacts.

(** ** Properties of the values-only component *)

Import MoreNotions ValuesOnly ValuesOnlyFacts.

(** X8: the lines the values-only component keeps are those whose trimmed
    text is not empty, left untrimmed; trimming them gives the lines of the
    other component. *)
Theorem kept_lines_trimmed (text : string) :
  map trim (extractedInfo text) = Extractor.lines text /\
  Forall (fun l => trim l <> EmptyString /\ noLF l) (extractedInfo text).
Proof.
  split; [apply map_trim_extractedInfo |].
  pose proof (extractedInfo_noLF text) as HN. rewrite Forall_forall in HN.
  apply Forall_forall. intros l Hl. split; [| now apply HN].
  unfold extractedInfo in Hl. apply filter_In in Hl. destruct Hl as [_ H].
  apply negb_true_iff, String.eqb_neq in H. exact H.
Qed.

(** X9: for a keyword the modelled RegExp covers, [searchStringInArray]
    does not depend on the case of the keyword: a keyword with the same
    lower-case form gives the same string on every array of lines. *)
Theorem keyword_case_is_irrelevant (k1 k2 : string) (ls : list string) :
  supportedKeyword k1 = true ->
  toLowerCase k1 = toLowerCase k2 ->
  exists v,
    searchStringInArray k1 ls = Some v /\
    searchStringInArray k2 ls = Some v.
Proof.
  intros Sup H. destruct (search_returns k1 ls Sup) as [v Hv].
  exists v. split; [exact Hv |]. rewrite <- Hv. symmetry.
  clear v Hv. induction ls as [| l ls IH]; simpl; [reflexivity |].
  now rewrite H, (valueOf_same_lower k1 k2 l H), IH.
Qed.

Lemma keyword_case_example :
  exists v,
    searchStringInArray "Model Name" ["ACME"; "MODEL NAME: x200"] = Some v /\
    searchStringInArray "mODEL nAME" ["ACME"; "MODEL NAME: x200"] = Some v.
Proof.
  apply (keyword_case_is_irrelevant "Model Name" "mODEL nAME");
    reflexivity.
Defined.

(** X10: every value [searchStringInArray] returns is non-empty, has no
    whitespace at either end and holds no colon, on every array of lines. *)
Theorem searched_value_shape (k : string) (ls : list string) (v : string) :
  searchStringInArray k ls = Some v ->
  truthy v = true /\ trimmed v = true /\ noColon v = true.
Proof.
  intros HV. apply search_returned in HV.
  destruct HV as [-> | (line & value & _ & Hv & ->)]; [repeat split |].
  unfold or_else. destruct (truthy value) eqn:T; [| repeat split].
  unfold valueOf in Hv. destruct (RegExp_gi k) as [re |]; [| discriminate].
  injection Hv as <-. split; [exact T |].
  split; [apply trimmed_trim |].
  unfold noColon. apply allChars_trim. apply noColon_stripColons.
Qed.

Lemma searched_value_shape_witness :
  truthy "x200" = true /\ trimmed "x200" = true /\ noColon "x200" = true.
Proof.
  apply (searched_value_shape "Model Name" ["ACME"; " Model Name :: x200 "]).
  reflexivity.
Defined.

(** X11: the first line that contains the keyword case-insensitively
    decides: lines that do not contain it give the sentinel, and the first
    line that does gives, for a keyword of plain text, that line without the
    occurrences of the keyword and without colons, trimmed, or the sentinel
    when nothing is left; the lines after it are never read. *)
Theorem first_containing_line_decides (k : string) (before : list string)
    (line : string) (after : list string) :
  Forall (fun l => containsCI l k = false) before ->
  searchStringInArray k before = Some NotFound /\
  (containsCI line k = true -> plainText k = true ->
   searchStringInArray k (before ++ line :: after)
   = Some (or_else (trim (stripColons (removeOccurrencesCI k line))) NotFound)).
Proof.
  intros Hb. split.
  - rewrite <- (app_nil_r before). now rewrite search_skip.
  - intros Hc Hp. rewrite (search_skip _ _ _ Hb). cbn [searchStringInArray].
    unfold containsCI in Hc. rewrite Hc. unfold valueOf.
    pose proof (replaceAll_plainText k line Hp) as R.
    destruct (RegExp_gi k) as [re |]; simpl in R; [| discriminate].
    injection R as R. now rewrite R.
Qed.

(** A label alone on its line: the value on the next line is not read. *)
Lemma label_alone_is_not_found :
  searchStringInArray "Model Number" ["ACME"] = Some NotFound /\
  searchStringInArray "Model Number" (["ACME"] ++ "Model Number:" :: ["MX-4410"])
  = Some NotFound.
Proof.
  destruct (first_containing_line_decides
              "Model Number" ["ACME"] "Model Number:" ["MX-4410"]) as [H1 H2].
  - repeat constructor.
  - split; [exact H1 |]. apply H2; reflexivity.
Defined.

(** X12: with at least one keyword the text stored is the values, one per
    keyword in their order, each followed by a newline; it is never the
    recognised text itself, and splitting it at the newlines gives back the
    values and a last empty segment. *)
Theorem stored_text_is_value_lines (ks : list string) (text : string) :
  ks <> [] ->
  Forall (fun k => supportedKeyword k = true) ks ->
  exists values,
    Forall2 (fun k v => searchStringInArray k (extractedInfo text) = Some v)
            ks values /\
    storedText ks text = Some (valueLines values) /\
    split LF (valueLines values) = values ++ [EmptyString].
Proof.
  intros NE Sup.
  destruct (keyword_values_exist ks (extractedInfo text) Sup) as [values HV].
  exists values. split; [exact HV |]. split.
  - unfold storedText.
    rewrite (appendValues_valueLines _ _ _ EmptyString HV). cbn [append].
    destruct HV as [| k v ks values Hv HV]; [contradiction |].
    cbn [valueLines]. destruct v; reflexivity.
  - apply split_valueLines.
    clear NE Sup. induction HV as [| k v ks values Hv _ IH]; constructor;
      [| exact IH].
    apply (search_noLF k (extractedInfo text)); [apply extractedInfo_noLF | exact Hv].
Qed.

Lemma stored_text_of_sample :
  exists values,
    Forall2 (fun k v => searchStringInArray k (extractedInfo sampleText) = Some v)
            impData values /\
    storedText impData sampleText = Some (valueLines values) /\
    split LF (valueLines values) = values ++ [EmptyString].
Proof.
  apply (stored_text_is_value_lines impData sampleText).
  - discriminate.
  - repeat constructor.
Defined.

Example stored_text_sample_values :
  storedText impData sampleText
  = Some ("Foo" ++ newline ++ "Not found" ++ newline ++ "Not found" ++ newline)%string.
Proof. reflexivity. Qed.

(** ** Facts about the event handlers *)

Module HandlerFacts.

Import JS Spec Notions MoreNotions JSFacts Extractor ExtractorFacts ObjectFacts.
Import View Handlers.

(** With the configured fields the [try] block always stores three fields
    under the configured keys and a summary that is not empty. *)
Lemma extractText_configured (st : State) (text : string) :
  exists st',
    extractText importantFields st text = Some st' /\
    JSObject.keys (extractedFields st') = configuredKeys /\
    truthy (extractedText st') = true /\
    isProcessing st' = false /\
    progress st' = progress st.
Proof.
  destruct importantFields_keys as (ND & OK & Sup).
  destruct (values_exist importantFields (Extractor.lines text) Sup)
    as [values HV].
  pose proof (extract_ordinary_keys _ text _ ND OK HV) as E.
  unfold extractText. rewrite E. eexists. split; [reflexivity |].
  unfold importantFields in HV.
  inversion HV as [| ? v1 ? r1 _ HV1]; subst.
  inversion HV1 as [| ? v2 ? r2 _ HV2]; subst.
  inversion HV2 as [| ? v3 ? r3 _ HV3]; subst.
  inversion HV3; subst.
  repeat split.
Qed.

Lemma handleFile_valid (ui : UI) (file : File) :
  validSelection ui -> validSelection (fst (handleFile ui file)).
Proof.
  intros H. unfold handleFile, validSelection.
  destruct (prefix "image/" (fileType file)) eqn:P; cbn [negb fst]; [| exact H].
  destruct (N.ltb_spec maxSize (fileSize file)) as [L | L]; cbn [fst]; [exact H |].
  cbn [selectedImage]. unfold accepted. rewrite P.
  now apply N.leb_le in L.
Qed.

Lemma handleFile_fields (ui : UI) (file : File) :
  fieldsWithText (results ui) -> fieldsWithText (results (fst (handleFile ui file))).
Proof.
  intros H. unfold handleFile.
  destruct (prefix "image/" (fileType file)); cbn [negb fst]; [| exact H].
  destruct (maxSize <? fileSize file)%N; cbn [fst]; [exact H |].
  now left.
Qed.

Lemma stored_configured (ui : UI) (text : string) :
  exists ui',
    stored ui text = Some ui' /\
    selectedImage ui' = selectedImage ui /\
    JSObject.keys (extractedFields (results ui')) = configuredKeys /\
    truthy (extractedText (results ui')) = true.
Proof.
  destruct (extractText_configured (results ui) text) as (st' & E & K & T & _).
  unfold extractText in E. unfold stored.
  destruct (extract importantFields text) as [[fields summary] |];
    [| discriminate].
  injection E as <-. eexists. split; [reflexivity |]. repeat split; assumption.
Qed.

(** The [try] block followed by [finally] is [Extractor.extractText] on
    the four variables it writes. *)
Lemma stored_then_finished (ui : UI) (text : string) :
  option_map (fun ui' => results (finished ui')) (stored ui text)
  = extractText importantFields (results ui) text.
Proof.
  unfold stored, extractText.
  destruct (extract importantFields text) as [[fields summary] |]; reflexivity.
Qed.

Lemma step_returns (ui : UI) (e : event) : exists ui', step ui e = Some ui'.
Proof.
  destruct e; cbn [step]; try (eexists; reflexivity).
  destruct (stored_configured ui text) as (ui' & -> & _). eauto.
Qed.

Lemma step_valid (ui ui' : UI) (e : event) :
  step ui e = Some ui' -> validSelection ui -> validSelection ui'.
Proof.
  intros S V.
  destruct e as [ty | fs | fs | r | | | n | text | | | |]; cbn [step] in S;
    try (injection S as <-; exact V).
  - injection S as <-. unfold handleDrag.
    destruct (_ || _); [exact V |]. destruct (String.eqb _ _); exact V.
  - injection S as <-. unfold handleDrop.
    destruct fs as [| f fs]; [exact V | now apply handleFile_valid].
  - injection S as <-. unfold handleImageChange.
    destruct fs as [[| f fs] |]; try exact V. now apply handleFile_valid.
  - injection S as <-. exact I.
  - injection S as <-. unfold extractStarted.
    destruct (selectedImage ui) as [file |] eqn:E; [| exact V].
    unfold validSelection in *. cbn [selectedImage]. now rewrite E in V.
  - destruct (stored_configured ui text) as (ui1 & E & Sel & _).
    rewrite E in S. injection S as <-.
    unfold validSelection in *. now rewrite Sel.
Qed.

Lemma step_fields (ui ui' : UI) (e : event) :
  step ui e = Some ui' ->
  fieldsWithText (results ui) -> fieldsWithText (results ui').
Proof.
  intros S F.
  destruct e as [ty | fs | fs | r | | | n | text | | | |]; cbn [step] in S;
    try (injection S as <-; exact F).
  - injection S as <-. unfold handleDrag.
    destruct (_ || _); [exact F |]. destruct (String.eqb _ _); exact F.
  - injection S as <-. unfold handleDrop.
    destruct fs as [| f fs]; [exact F | now apply handleFile_fields].
  - injection S as <-. unfold handleImageChange.
    destruct fs as [[| f fs] |]; try exact F. now apply handleFile_fields.
  - injection S as <-. now left.
  - injection S as <-. unfold extractStarted.
    destruct (selectedImage ui); [now left | exact F].
  - destruct (stored_configured ui text) as (ui1 & E & _ & K & T).
    rewrite E in S. injection S as <-. right. now split.
  - injection S as <-. destruct F as [F | [_ K]]; [now left | right].
    now split.
Qed.

Lemma run_invariant (P : UI -> Prop) :
  (forall ui ui' e, step ui e = Some ui' -> P ui -> P ui') ->
  forall events ui, P ui -> exists ui', run ui events = Some ui' /\ P ui'.
Proof.
  intros Hstep. induction events as [| e events IH]; intros ui H; cbn [run].
  - eauto.
  - destruct (step_returns ui e) as [ui1 S]. rewrite S.
    apply IH. exact (Hstep _ _ _ S H).
Qed.

Lemma fieldRows_all (st : State) :
  fieldsWithText st -> fieldRows st = extractedFields st.
Proof.
  unfold fieldRows, showResults. intros [E | [T K]].
  - rewrite E. now destruct (truthy (extractedText st)).
  - now rewrite T, K.
Qed.

End HandlerFacts.

(** ** Properties of the event handlers *)

Import Handlers HandlerFacts.

(** X13: whatever the user and the OCR worker do, in any order, the
    component ends in a state, and the file it holds as selected, if any,
    has a type that starts with "image/" and at most 10 MB: a file that
    fails the test of [handleFile] is never selected. *)
Theorem selected_file_always_accepted (events : list event) :
  exists ui, run initial events = Some ui /\ validSelection ui.
Proof.
  apply (run_invariant validSelection); [exact step_valid | exact I].
Qed.

(** X14: whatever the user and the OCR worker do, in any order, the fields
    the component stores are none or those of the three configured keys
    under a text that is not empty, so that the page shows every stored
    field: the panel is never hidden while fields are stored. *)
Theorem stored_fields_always_shown (events : list event) :
  exists ui,
    run initial events = Some ui /\
    (JSObject.keys (extractedFields (results ui)) = [] \/
     JSObject.keys (extractedFields (results ui)) = configuredKeys) /\
    fieldRows (results ui) = extractedFields (results ui).
Proof.
  destruct (run_invariant (fun ui => fieldsWithText (results ui))
              step_fields events initial) as (ui & R & F); [now left |].
  exists ui. split; [exact R |]. split; [| now apply fieldRows_all].
  destruct F as [E | [_ K]]; [left; now rewrite E | now right].
Qed.

(** A rejected drop, an accepted one, and an extraction that stores its
    results and then fails: the fields stay, under the error text. *)
Example session :
  option_map (fun ui => (selectedImage ui, fieldRows (results ui),
                         extractedText (results ui)))
    (run initial
       [Drop [mkFile "notes.txt" "text/plain" 12];
        Drop [mkFile "label.png" "image/png" 10485760];
        ExtractClicked;
        Stored "Model: X200"; Caught; Finished])
  = Some (Some (mkFile "label.png" "image/png" 10485760),
          [("Model Name", "X200"); ("Model Number", NotFound);
           ("Serial Number", NotFound)],
          errorText).
Proof. reflexivity. Qed.
